(** * Service build tasks of taskcluster-installer: [src/build/service.js]

    A shallow embedding of [generateServiceTasks] and of the [run]
    procedures of the task nodes it registers, together with the
    properties of the task graph, of the caching (stamp / probe) paths
    and of the Procfile parser.

    Conventions.
    - A JavaScript string is a [string]; an [ascii] with code [n] stands
      for the UTF-16 code unit [n] (so the texts covered are those whose
      code units are below 256).
    - An expression that may throw evaluates to a [Completion].
    - Code that calls collaborators ([fs], [rimraf], the docker wrappers
      of [./utils], ...) lives in the monad [M]: a state-and-exception
      monad over the state of the host, which also records every call in
      a log.  What the collaborators do is a parameter ([Collaborators]);
      the results hold for every behaviour of them. *)

From Stdlib Require Import Ascii String NArith List Bool Lia.
From stdpp Require Import base option list strings gmap.

Local Open Scope string_scope.
Local Open Scope list_scope.

(** ** JavaScript values and completions *)

Module Js.

(** The values that flow through [requirements] and [provides]. *)
Inductive Val :=
| VUndef
| VBool (b : bool)
| VStr (s : string).

#[global] Instance Val_eq_dec : EqDecision Val.
Proof. solve_decision. Defined.

(** [ToBoolean]. *)
Definition truthy (v : Val) : bool :=
  match v with
  | VUndef => false
  | VBool b => b
  | VStr s => negb (String.eqb s EmptyString)
  end.

(** [ToString], as performed by a template literal. *)
Definition toString (v : Val) : string :=
  match v with
  | VUndef => "undefined"
  | VBool true => "true"
  | VBool false => "false"
  | VStr s => s
  end.

Inductive Error :=
| Error_ (message : string)            (* new Error(message) *)
| TypeError (message : string)
| ReferenceError (message : string)
| AssertionError (message : string)
| Failure (message : string).          (* raised by a collaborator *)

Definition message (e : Error) : string :=
  match e with
  | Error_ m | TypeError m | ReferenceError m | AssertionError m | Failure m => m
  end.

Inductive Completion (A : Type) :=
| Normal (a : A)
| Throw (e : Error).
Arguments Normal {A} a.
Arguments Throw {A} e.

End Js.
Import Js.

(** ** Strings *)

Module Str.

(** [s.startsWith(p)] *)
Fixpoint startsWith (p s : string) : bool :=
  match p, s with
  | EmptyString, _ => true
  | String a p', String b s' => Ascii.eqb a b && startsWith p' s'
  | String _ _, EmptyString => false
  end.

(** [s.split(sep)] for a one-character separator: never empty, one more
    piece than there are separators. *)
Fixpoint split (sep : ascii) (s : string) : list string :=
  match s with
  | EmptyString => [EmptyString]
  | String c s' =>
      if Ascii.eqb c sep then EmptyString :: split sep s'
      else match split sep s' with
           | h :: t => String c h :: t
           | [] => [String c EmptyString]
           end
  end.

(** [s.replace(a, b)] for one-character strings [a] and [b]: only the
    first occurrence is replaced. *)
Fixpoint replace (a b : ascii) (s : string) : string :=
  match s with
  | EmptyString => EmptyString
  | String c s' => if Ascii.eqb c a then String b s' else String c (replace a b s')
  end.

(** [s.includes(c)] for a one-character string. *)
Fixpoint includes (c : ascii) (s : string) : bool :=
  match s with
  | EmptyString => false
  | String d s' => Ascii.eqb d c || includes c s'
  end.

Fixpoint all (p : ascii -> bool) (s : string) : bool :=
  match s with
  | EmptyString => true
  | String c s' => p c && all p s'
  end.

Fixpoint any (p : ascii -> bool) (s : string) : bool :=
  match s with
  | EmptyString => false
  | String c s' => p c || any p s'
  end.

Definition code (c : ascii) : N := N_of_ascii c.

(** WhiteSpace and LineTerminator code units below 256: TAB, LF, VT, FF,
    CR, SP, NBSP.  This is the class [\s], and what [trim] strips. *)
Definition is_space (c : ascii) : bool :=
  existsb (N.eqb (code c)) [9; 10; 11; 12; 13; 32; 160]%N.

(** LineTerminator code units below 256 (LF, CR): what [.] excludes. *)
Definition is_line_terminator (c : ascii) : bool :=
  existsb (N.eqb (code c)) [10; 13]%N.

Fixpoint trimStart (s : string) : string :=
  match s with
  | EmptyString => EmptyString
  | String c s' => if is_space c then trimStart s' else s
  end.

Fixpoint trimEnd (s : string) : string :=
  match s with
  | EmptyString => EmptyString
  | String c s' =>
      match trimEnd s' with
      | EmptyString => if is_space c then EmptyString else String c EmptyString
      | r => String c r
      end
  end.

(** [s.trim()] *)
Definition trim (s : string) : string := trimEnd (trimStart s).

(** [s.replace] with a global pattern that captures one character of a
    class [C], and a replacement that is a backslash followed by the
    capture: a backslash is put before every character of the class. *)
Fixpoint escape (p : ascii -> bool) (s : string) : string :=
  match s with
  | EmptyString => EmptyString
  | String c s' =>
      if p c then String "\" (String c (escape p s')) else String c (escape p s')
  end.

Definition one_of (cs : string) (c : ascii) : bool := includes c cs.

End Str.

(** ** The regular expression of the Procfile parser

    A backtracking matcher in continuation-passing style, with the
    priorities of ECMAScript: a greedy quantifier tries the longest
    repetition first and gives characters back one at a time. *)

Module Re.

Section Matcher.
Context {R : Type}.

(** [C*] for a character class [C]; [acc] is the text matched so far,
    [k] receives the text matched and the rest of the input. *)
Fixpoint star (p : ascii -> bool) (acc s : string)
         (k : string -> string -> option R) : option R :=
  match s with
  | String c s' =>
      if p c then
        match star p (acc +:+ String c EmptyString) s' k with
        | Some r => Some r
        | None => k acc s
        end
      else k acc s
  | EmptyString => k acc s
  end.

(** [C+] *)
Definition plus (p : ascii -> bool) (s : string)
           (k : string -> string -> option R) : option R :=
  match s with
  | String c s' => if p c then star p (String c EmptyString) s' k else None
  | EmptyString => None
  end.

(** [c?] for a single character [c]. *)
Definition opt (c : ascii) (s : string) (k : string -> option R) : option R :=
  match s with
  | String d s' =>
      if Ascii.eqb d c then
        match k s' with
        | Some r => Some r
        | None => k s
        end
      else k s
  | EmptyString => k s
  end.

(** [$] (no [m] flag): the end of the input. *)
Definition eoi (s : string) (r : R) : option R :=
  match s with
  | EmptyString => Some r
  | String _ _ => None
  end.
End Matcher.

Definition not_colon (c : ascii) : bool := negb (Ascii.eqb c ":").
Definition dot (c : ascii) : bool := negb (Str.is_line_terminator c).

(** [exec] of the pattern on [s]: the two captured groups, or [None] for
    [null].  The pattern is, piece by piece: start of input; group 1, one
    or more characters other than a colon; an optional colon; one or more
    white space characters; group 2, any number of characters other than
    line terminators; end of input.  It is anchored at the start, so only
    a match that starts at index 0 exists. *)
Definition procfile_line (s : string) : option (string * string) :=
  plus not_colon s (fun g1 s1 =>
  opt ":" s1 (fun s2 =>
  plus Str.is_space s2 (fun _ s3 =>
  star dot EmptyString s3 (fun g2 s4 =>
  eoi s4 (g1, g2))))).

(** The next character of [rest], if any, is outside the class [p]. *)
Definition stops (p : ascii -> bool) (rest : string) : Prop :=
  match rest with
  | EmptyString => True
  | String c _ => p c = false
  end.

(** The shape of the strings the pattern matches, as a proposition: a
    non-empty name without a colon, an optional colon, at least one white
    space character, and a command without line terminators. *)
Definition lineShape (t : string) : Prop :=
  exists n colon ws cmd,
    t = n +:+ colon +:+ ws +:+ cmd
    /\ n <> EmptyString /\ Str.all not_colon n = true
    /\ (colon = EmptyString \/ colon = ":")
    /\ ws <> EmptyString /\ Str.all Str.is_space ws = true
    /\ Str.all dot cmd = true.

End Re.

(** ** shell-quote: [quote([s])]

    The three string branches of [quote] (shell-quote 1.6.1), for an
    array with the single string [s]. *)

Module ShellQuote.

Definition dquote : ascii := "034"%char.
Definition squote : ascii := "039"%char.

(** Does [s] hold a double quote or white space? *)
Definition has_dquote_or_space (s : string) : bool :=
  Str.any (fun c => Ascii.eqb c dquote || Str.is_space c) s.

(** Does [s] hold a double quote, a single quote or white space? *)
Definition has_quote_or_space (s : string) : bool :=
  Str.any (fun c => Ascii.eqb c dquote || Ascii.eqb c squote || Str.is_space c) s.

Definition quote (s : string) : string :=
  if has_dquote_or_space s && negb (Str.includes squote s) then
    "'" +:+ Str.escape (Str.one_of "'\") s +:+ "'"
  else if has_quote_or_space s then
    String dquote (Str.escape (Str.one_of (String dquote "\$`!")) s
                   +:+ String dquote EmptyString)
  else
    Str.escape (Str.one_of ("#!" +:+ String dquote "$&'()*,:;<=>?@[\]^`{|}")) s.

End ShellQuote.

(** ** The Procfile parser (Service Compile, "Create Entrypoint Script") *)

Record Proc := { proc_name : string; proc_command : string }.

Module Procfile.

(** Line 165: the lines that are skipped, the empty line and the lines
    that start with a hash sign. *)
Definition ignored (line : string) : bool :=
  String.eqb line EmptyString || Str.startsWith "#" line.

(** Line 170: the error for a line that the pattern does not match. *)
Definition unexpected (line : string) : Error :=
  Error_ ("unexpected line in Procfile: " +:+ line).

(** The callback of [.map]: [None] for [null]. *)
Definition parseLine (line : string) : Completion (option Proc) :=
  if ignored line then Normal None
  else
    match Re.procfile_line (Str.trim line) with
    | None => Throw (unexpected line)
    | Some (g1, g2) =>
        Normal (Some {| proc_name := g1; proc_command := ShellQuote.quote g2 |})
    end.

(** [lines.map(parseLine).filter(l => l !== null)]: the callback runs on
    the lines in order, and the first exception leaves the [map]. *)
Fixpoint parseLines (lines : list string) : Completion (list Proc) :=
  match lines with
  | [] => Normal []
  | l :: ls =>
      match parseLine l with
      | Throw e => Throw e
      | Normal o =>
          match parseLines ls with
          | Throw e => Throw e
          | Normal ps => Normal (option_list o ++ ps)
          end
      end
  end.

Definition parse (text : string) : Completion (list Proc) :=
  parseLines (Str.split "010" text).

(** The form of a line as the specification words it: a name, a colon,
    optional white space and a command, the name being everything up to
    the first colon. *)
Definition specForm (line : string) : Prop :=
  exists n ws cmd,
    line = n +:+ ":" +:+ ws +:+ cmd
    /\ Str.includes ":" n = false
    /\ Str.all Str.is_space ws = true.

End Procfile.

(** ** The host, the collaborators and the monad of effects *)

(** An entry of the list that [dockerImages] resolves to; [RepoTags] may
    be [null]. *)
Record Image := { RepoTags : option (list string) }.

Record DockerRunArgs := {
  run_image : string;
  run_command : list string;
  run_env : option (list string);
  run_binds : list string;
  run_logfile : string;
  run_baseDir : string }.

(** The stream that [tar.pack(cwd, {entries, ignore})] returns. *)
Record Tarball := {
  tar_cwd : string;
  tar_entries : list string;
  tar_ignore : string -> bool }.

Record DockerBuildArgs := {
  build_tarball : Tarball;
  build_logfile : string;
  build_tag : string;
  build_baseDir : string }.

Record DockerPushArgs := {
  push_logfile : string;
  push_tag : Val;
  push_baseDir : string }.

(** One call to a collaborator, as recorded in the log of a run. *)
Inductive Call :=
| CExistsSync (path : string)
| CMkdirSync (path : string)
| CReadFileSync (path : string)
| CWriteFileSync (path content : string) (mode : option N)
| CRimraf (path : string)
| CMkdirp (path : string)
| CCopy (src : Val) (dest : string)
| CGitClone (dir url : string)
| CDockerRun (args : DockerRunArgs)
| CDockerPull (image baseDir : string)
| CDockerImages (baseDir : string)
| CDockerBuild (args : DockerBuildArgs)
| CDockerRegistryCheck (tag : string)
| CDockerPush (args : DockerPushArgs)
| CDirStamped (dir : string) (sources : Val)
| CStampDir (dir : string) (sources : Val)
| CStep (title : string).

Definition is_stampDir (c : Call) : bool :=
  match c with CStampDir _ _ => true | _ => false end.
Definition is_dockerRun (c : Call) : bool :=
  match c with CDockerRun _ => true | _ => false end.
Definition is_dockerPull (c : Call) : bool :=
  match c with CDockerPull _ _ => true | _ => false end.
Definition is_dockerBuild (c : Call) : bool :=
  match c with CDockerBuild _ => true | _ => false end.
Definition is_dockerPush (c : Call) : bool :=
  match c with CDockerPush _ => true | _ => false end.

Section Host.
(** Whatever the host holds besides the stamp records: its disk, the
    local image store, the registry. *)
Context {D : Type}.

(** The state of the host.  [stamps] is the stamp store: the exact-source
    identifier recorded for each stamped output directory. *)
Record Host := {
  stamps : gmap string Val;
  disk : D }.

(** A collaborator: it answers or throws, and may change the host. *)
Definition Ext (R : Type) : Type := Host -> Completion R * Host.

(** The modules that [service.js] requires, and the two compiled
    templates.  Nothing is assumed about what they do. *)
Class Collaborators := {
  fs_existsSync : string -> Ext bool;
  fs_mkdirSync : string -> Ext unit;
  fs_readFileSync : string -> Ext string;
  fs_writeFileSync : string -> string -> option N -> Ext unit;
  ext_rimraf : string -> Ext unit;
  ext_mkdirp : string -> Ext unit;
  ext_copy : Val -> string -> Ext unit;
  ext_gitClone : string -> string -> Ext unit;
  ext_dockerRun : DockerRunArgs -> Ext unit;
  ext_dockerPull : string -> string -> Ext unit;
  ext_dockerImages : string -> Ext (list Image);
  ext_dockerBuild : DockerBuildArgs -> Ext unit;
  ext_dockerRegistryCheck : string -> Ext bool;
  ext_dockerPush : DockerPushArgs -> Ext unit;
  path_join : list string -> string;
  path_dirname : string -> string;
  ENTRYPOINT_TEMPLATE : list Proc -> string;
  DOCKERFILE_TEMPLATE : string -> string }.

(** The monad of a run: from a host to a completion, the host after
    it, and the calls made, oldest first. *)
Definition M (A : Type) : Type := Host -> Completion A * Host * list Call.

Definition ret {A} (a : A) : M A := fun h => (Normal a, h, []).

Definition throw {A} (e : Error) : M A := fun h => (Throw e, h, []).

Definition bind {A B} (m : M A) (f : A -> M B) : M B :=
  fun h =>
    match m h with
    | (Normal a, h1, l1) =>
        match f a h1 with
        | (r, h2, l2) => (r, h2, l1 ++ l2)
        end
    | (Throw e, h1, l1) => (Throw e, h1, l1)
    end.

Definition lift {A} (c : Completion A) : M A :=
  match c with
  | Normal a => ret a
  | Throw e => throw e
  end.

(** A call to a collaborator, recorded as [c]. *)
Definition call {R} (c : Call) (f : Ext R) : M R :=
  fun h => match f h with (r, h') => (r, h', [c]) end.

(** [xs.forEach(f)] *)
Fixpoint forEach {A} (f : A -> M unit) (xs : list A) : M unit :=
  match xs with
  | [] => ret tt
  | x :: xs' => bind (f x) (fun _ => forEach f xs')
  end.
End Host.
Arguments Host : clear implicits.
Arguments Ext : clear implicits.
Arguments Collaborators : clear implicits.
Arguments M : clear implicits.

Notation "'let*' x ':=' m 'in' k" := (bind m (fun x => k))
  (at level 10, x name, m at level 100, k at level 200).
Notation "'let*' '_' ':=' m 'in' k" := (bind m (fun _ => k))
  (at level 10, m at level 100, k at level 200).

(** ** The build specification and the task nodes *)

(** [repository.service] of an entry of [spec.build.repositories]. *)
Record Service := {
  buildtype : string;
  stack : string;
  buildpack : string }.

Record Repository := {
  repo_name : string;
  service : option Service }.

(** [spec.build] *)
Record Spec := { repositories : list Repository }.

(** [cfg.docker] *)
Record Cfg := { repositoryPrefix : string }.

Record CmdOptions := { push : Val }.

(** Modelled from the spec: [utils.skip] belongs to the executor, which is
    not in [service.js]; it yields a distinguished return value telling
    the executor that the node performed no new work but supplies the
    given map.  That value is [Skip]; the other values a [run] returns
    are an object, and [undefined] when the body ends without a
    [return]. *)
Inductive RunValue :=
| Skip (providesMap : gmap string Val)
| Object (props : gmap string Val)
| Undefined.

(** [o[k]] *)
Definition prop (o : gmap string Val) (k : string) : Val :=
  default VUndef (o !! k).

(** The variables of [generateServiceTasks] that the [run] closures
    capture. *)
Record Closure := {
  name : string;
  baseDir : string;
  workDir : string;
  stackImage : string;
  buildImage : string;
  buildpackUrl : string;
  buildpackName : string;
  cfg : Cfg;
  cmdOptions : CmdOptions }.

Section Tasks.
Context {D : Type} `{!Collaborators D}.

Record Task := {
  title : string;
  requires : list string;
  provides : list string;
  run : gmap string Val -> M D RunValue }.

(** *** The collaborators as monadic calls *)

Definition existsSync (p : string) : M D bool :=
  call (CExistsSync p) (fs_existsSync p).
Definition mkdirSync (p : string) : M D unit :=
  call (CMkdirSync p) (fs_mkdirSync p).
Definition readFileSync (p : string) : M D string :=
  call (CReadFileSync p) (fs_readFileSync p).
Definition writeFileSync (p content : string) (mode : option N) : M D unit :=
  call (CWriteFileSync p content mode) (fs_writeFileSync p content mode).
Definition rimraf (p : string) : M D unit :=
  call (CRimraf p) (ext_rimraf p).
Definition mkdirp (p : string) : M D unit :=
  call (CMkdirp p) (ext_mkdirp p).
Definition copy (src : Val) (dest : string) : M D unit :=
  call (CCopy src dest) (ext_copy src dest).
Definition gitClone (dir url : string) : M D unit :=
  call (CGitClone dir url) (ext_gitClone dir url).
Definition dockerRun (args : DockerRunArgs) : M D unit :=
  call (CDockerRun args) (ext_dockerRun args).
Definition dockerPull (image base : string) : M D unit :=
  call (CDockerPull image base) (ext_dockerPull image base).
Definition dockerImages (base : string) : M D (list Image) :=
  call (CDockerImages base) (ext_dockerImages base).
Definition dockerBuild (args : DockerBuildArgs) : M D unit :=
  call (CDockerBuild args) (ext_dockerBuild args).
Definition dockerRegistryCheck (tag : string) : M D bool :=
  call (CDockerRegistryCheck tag) (ext_dockerRegistryCheck tag).
Definition dockerPush (args : DockerPushArgs) : M D unit :=
  call (CDockerPush args) (ext_dockerPush args).

(** Modelled from the spec: [utils.step] belongs to the executor; it is
    a progress notification without a return value that never fails. *)
Definition step (t : string) : M D unit :=
  fun h => (Normal tt, h, [CStep t]).

(** *** The stamp store *)

(** Modelled from the spec: [dirStamped] of [./utils] is not in
    [service.js].  It is true iff [dir] exists and contains a stamp
    record whose stored identifier equals [sources] exactly; it reads
    and changes nothing. *)
Definition stamped (h : Host D) (dir : string) (sources : Val) : bool :=
  bool_decide (stamps h !! dir = Some sources).

(** Modelled from the spec: the call of [dirStamped], a question to the
    stamp store that leaves the host as it is. *)
Definition dirStamped (dir : string) (sources : Val) : M D bool :=
  fun h => (Normal (stamped h dir sources), h, [CDirStamped dir sources]).

(** Modelled from the spec: [stampDir] of [./utils] is not in
    [service.js].  It writes or overwrites the stamp record for [dir]
    with [sources]. *)
Definition stamp (h : Host D) (dir : string) (sources : Val) : Host D :=
  {| stamps := <[dir := sources]> (stamps h); disk := disk h |}.

(** Modelled from the spec: the call of [stampDir]. *)
Definition stampDir (dir : string) (sources : Val) : M D unit :=
  fun h => (Normal tt, stamp h dir sources, [CStampDir dir sources]).

(** *** Registration (lines 37-42) *)

(** [_.find(tasks, {title})] *)
Definition findByTitle (t : string) (tasks : list Task) : option Task :=
  List.find (fun x => String.eqb (title x) t) tasks.

(** add a task to tasks only if it isn't already there *)
Definition ensureTask (task : Task) (tasks : list Task) : list Task :=
  match findByTitle (title task) tasks with
  | Some _ => tasks
  | None => tasks ++ [task]
  end.

Section Nodes.
Variable c : Closure.

(** *** Pull Docker Image (lines 44-64) *)

Definition pullStackImageTask : Task := {|
  title := "Pull Docker Image " +:+ stackImage c;
  requires := [];
  provides := ["docker-image-" +:+ stackImage c];
  run := fun requirements =>
    let* _ := dockerPull (stackImage c) (baseDir c) in
    ret Undefined |}.

Definition pullBuildImageTask : Task := {|
  title := "Pull Docker Image " +:+ buildImage c;
  requires := [];
  provides := ["docker-image-" +:+ buildImage c];
  run := fun requirements =>
    let* _ := dockerPull (buildImage c) (baseDir c) in
    ret Undefined |}.

(** *** Clone (lines 66-84) *)

Definition cloneTask : Task := {|
  title := "Clone " +:+ buildpackName c;
  requires := [];
  provides := ["repo-" +:+ buildpackName c];
  run := fun requirements =>
    let repoDir := path_join [baseDir c; "repo-" +:+ buildpackName c] in
    let* _ := gitClone repoDir (buildpackUrl c) in
    ret (Object {[ "repo-" +:+ buildpackName c := VStr repoDir ]}) |}.

(** *** Service Compile (lines 86-180) *)

Definition exactSourceKey : string := "repo-" +:+ name c +:+ "-exact-source".
Definition builtAppDirKey : string := "service-" +:+ name c +:+ "-built-app-dir".
Definition dockerImageKey : string := "service-" +:+ name c +:+ "-docker-image".
Definition onRegistryKey : string := "service-" +:+ name c +:+ "-image-on-registry".
Definition docsDirKey : string := "docs-" +:+ name c +:+ "-dir".

Definition compileAppDir : string := path_join [workDir c; "app"].

Definition compileProvides : gmap string Val :=
  {[ builtAppDirKey := VStr compileAppDir ]}.

(** Lines 113-175: from "Copy Source Repository" to the writing of the
    entrypoint script. *)
Definition compileBuild (requirements : gmap string Val) : M D unit :=
  let repoDir := prop requirements ("repo-" +:+ name c +:+ "-dir") in
  let appDir := compileAppDir in
  let bpDir := prop requirements ("repo-" +:+ buildpackName c) in
  let* _ := step "Copy Source Repository" in
  let* _ := copy repoDir appDir in
  let* _ := step "Buildpack Detect" in
  let* _ := dockerRun {|
    run_image := buildImage c;
    run_command := ["/buildpack/bin/detect"; "/app"];
    run_env := None;
    run_binds := [toString bpDir +:+ ":/buildpack"; appDir +:+ ":/app"];
    run_logfile := workDir c +:+ "/detect.log";
    run_baseDir := baseDir c |} in
  let* _ := step "Buildpack Compile" in
  let envDir := path_join [workDir c; "env"] in
  let cacheDir := path_join [workDir c; "cache"] in
  let* e := existsSync envDir in
  let* _ := (if e then rimraf envDir else ret tt) in
  let* _ := forEach (fun dir =>
              let* e := existsSync dir in
              if negb e then mkdirSync dir else ret tt)
              [envDir; cacheDir] in
  let* _ := dockerRun {|
    run_image := buildImage c;
    run_command := ["/buildpack/bin/compile"; "/app"; "/cache"; "/env"];
    run_env := None;
    run_binds := [toString bpDir +:+ ":/buildpack"; appDir +:+ ":/app";
                  envDir +:+ ":/env"; cacheDir +:+ ":/cache"];
    run_logfile := workDir c +:+ "/compile.log";
    run_baseDir := baseDir c |} in
  let* _ := step "Create Entrypoint Script" in
  let procfilePath := path_join [appDir; "Procfile"] in
  let* e := existsSync procfilePath in
  if negb e then
    throw (Error_ ("Service " +:+ name c +:+ " has no Procfile"))
  else
    let* Procfile := readFileSync procfilePath in
    let* procs := lift (Procfile.parse Procfile) in
    let entrypoint := ENTRYPOINT_TEMPLATE procs in
    writeFileSync (path_join [appDir; "entrypoint"]) entrypoint (Some 511%N).

Definition compileRun (requirements : gmap string Val) : M D RunValue :=
  let appDir := compileAppDir in
  let provides := compileProvides in
  (* if we've already built this appDir with this revision, we're done. *)
  let* isStamped := dirStamped appDir (prop requirements exactSourceKey) in
  if isStamped then ret (Skip provides)
  else
    let* _ := rimraf appDir in
    let* _ := compileBuild requirements in
    let* _ := stampDir appDir (prop requirements exactSourceKey) in
    ret (Object provides).

Definition compileTask : Task := {|
  title := "Service " +:+ name c +:+ " - Compile";
  requires := ["repo-" +:+ name c +:+ "-dir";
               exactSourceKey;
               "docker-image-" +:+ buildImage c;
               "repo-" +:+ buildpackName c];
  provides := [builtAppDirKey];
  run := compileRun |}.

(** *** Service Build Image (lines 182-239) *)

(** Lines 195-196: [headRef] is the second piece of the exact-source
    identifier split at the hash sign ([undefined] when there is none);
    the tag is the prefix, the name, a colon and [headRef]. *)
Definition imageTag (requirements : gmap string Val) : Completion string :=
  match prop requirements exactSourceKey with
  | VStr s =>
      let headRef := from_option VStr VUndef (Str.split "#" s !! 1%nat) in
      Normal (repositoryPrefix (cfg c) +:+ name c +:+ ":" +:+ toString headRef)
  | VUndef => Throw (TypeError "Cannot read property 'split' of undefined")
  | VBool _ => Throw (TypeError "split is not a function")
  end.

(** Line 201: the callback of [.some]. *)
Definition hasTag (tag : string) (image : Image) : bool :=
  match RepoTags image with
  | Some tags => existsb (String.eqb tag) tags
  | None => false
  end.

Definition buildImageProvides (tag : string) (imageOnRegistry : bool)
  : gmap string Val :=
  <[ onRegistryKey := VBool imageOnRegistry ]>
    {[ dockerImageKey := VStr tag ]}.

Definition buildImageRun (requirements : gmap string Val) : M D RunValue :=
  let appDir := prop requirements builtAppDirKey in
  let* tag := lift (imageTag requirements) in
  let* _ := step "Check for Existing Images" in
  let* images := dockerImages (baseDir c) in
  let imageLocal := existsb (hasTag tag) images in
  let* imageOnRegistry := dockerRegistryCheck tag in
  let provides := buildImageProvides tag imageOnRegistry in
  (* bail out if we can, pulling the image if it's only available remotely *)
  if negb imageLocal && imageOnRegistry then
    let* _ := dockerPull tag (baseDir c) in
    ret (Skip provides)
  else if imageLocal then
    ret (Skip provides)
  else
    (* build a tarfile containing the app directory and Dockerfile *)
    let* _ := step "Create Docker-Build Tarball" in
    let dockerfile := DOCKERFILE_TEMPLATE (stackImage c) in
    let* _ := writeFileSync (path_join [workDir c; "Dockerfile"]) dockerfile None in
    let* appGitDir :=
      match appDir with
      | VStr d => ret (path_join [d; ".git"])
      | _ => throw (TypeError "The path argument must be of type string")
      end in
    let tarball := {|
      tar_cwd := workDir c;
      tar_entries := ["app"; "Dockerfile"];
      tar_ignore := fun fulname => Str.startsWith appGitDir (name c) |} in
    let* _ := dockerBuild {|
      build_tarball := tarball;
      build_logfile := workDir c +:+ "/docker-build.log";
      build_tag := tag;
      build_baseDir := baseDir c |} in
    ret (Object provides).

Definition buildImageTask : Task := {|
  title := "Service " +:+ name c +:+ " - Build Image";
  requires := [exactSourceKey;
               builtAppDirKey;
               "docker-image-" +:+ stackImage c];
  provides := [dockerImageKey;     (* docker image tag *)
               onRegistryKey];     (* true if the image already exists on registry *)
  run := buildImageRun |}.

(** *** Service Generate Docs (lines 241-284) *)

(* note that docs directory paths must have this form (${basedir}/docs is
   mounted in docker images) *)
Definition docsDir : string := path_join [baseDir c; "docs"; name c].

Definition docsProvides : gmap string Val :=
  {[ docsDirKey := VStr docsDir ]}.

(** Lines 266-279. *)
Definition docsBuild (requirements : gmap string Val) : M D unit :=
  let appDir := prop requirements builtAppDirKey in
  let* _ := mkdirp (path_dirname docsDir) in
  dockerRun {|
    run_image := stackImage c;
    run_command := ["/app/entrypoint"; "write-docs"];
    run_env := Some ["DOCS_OUTPUT_DIR=/basedir/docs/" +:+ name c];
    run_binds := [toString appDir +:+ ":/app"; baseDir c +:+ ":/basedir"];
    run_logfile := workDir c +:+ "/generate-docs.log";
    run_baseDir := baseDir c |}.

Definition docsRun (requirements : gmap string Val) : M D RunValue :=
  let provides := docsProvides in
  (* if we've already built this docsDir with this revision, we're done. *)
  let* isStamped := dirStamped docsDir (prop requirements exactSourceKey) in
  if isStamped then ret (Skip provides)
  else
    let* _ := rimraf docsDir in
    let* _ := docsBuild requirements in
    let* _ := stampDir docsDir (prop requirements exactSourceKey) in
    ret (Object provides).

Definition docsTask : Task := {|
  title := "Service " +:+ name c +:+ " - Generate Docs";
  requires := [exactSourceKey;
               builtAppDirKey;
               "docker-image-" +:+ stackImage c];
  provides := [docsDirKey];
  run := docsRun |}.

(** *** Service Push Image (lines 286-314) *)

(** The error of line 302. *)
Definition alreadyOnRegistry (tag : Val) : Error :=
  Error_ ("Image " +:+ toString tag
          +:+ " already exists on the registry; not pushing").

(** Line 312 reads the identifier [provides].  The function declares
    [tag] only; [generateServiceTasks] and the module declare no
    [provides] either, and there is no such global: evaluating the
    identifier throws a ReferenceError. *)
Definition pushImageRun (requirements : gmap string Val) : M D RunValue :=
  let tag := prop requirements dockerImageKey in
  if negb (truthy (push (cmdOptions c))) then ret (Skip ∅)
  else if truthy (prop requirements onRegistryKey) then
    throw (alreadyOnRegistry tag)
  else
    let* _ := dockerPush {|
      push_logfile := workDir c +:+ "/docker-push.log";
      push_tag := tag;
      push_baseDir := baseDir c |} in
    throw (ReferenceError "provides is not defined").

Definition pushImageTask : Task := {|
  title := "Service " +:+ name c +:+ " - Push Image";
  requires := [dockerImageKey; onRegistryKey];
  provides := [];
  run := pushImageRun |}.
End Nodes.

(** *** generateServiceTasks (lines 22-317) *)

(** Lines 24 and 31-35: the variables computed from the arguments and
    from the [service] entry of the repository. *)
Definition closureOf (baseDir : string) (cfg : Cfg) (name : string)
           (cmdOptions : CmdOptions) (svc : Service) : Closure :=
  let workDir := path_join [baseDir; "service-" +:+ name] in
  let stackImage := "heroku/" +:+ Str.replace "-" ":" (stack svc) in
  let buildImage := "heroku/" +:+ Str.replace "-" ":" (stack svc) +:+ "-build" in
  let buildpackUrl := buildpack svc in
  let buildpackName :=
    if Str.startsWith "https://github.com/heroku/" buildpackUrl then
      toString (from_option VStr VUndef (Str.split "/" buildpackUrl !! 4%nat))
    else Str.replace "/" "_" buildpackUrl in
  {| name := name; baseDir := baseDir; workDir := workDir;
     stackImage := stackImage; buildImage := buildImage;
     buildpackUrl := buildpackUrl; buildpackName := buildpackName;
     cfg := cfg; cmdOptions := cmdOptions |}.

(** Lines 44-314: the three shared nodes go through [ensureTask], the
    four stage nodes are pushed. *)
Definition registerNodes (c : Closure) (tasks : list Task) : list Task :=
  let tasks := ensureTask (pullStackImageTask c) tasks in
  let tasks := ensureTask (pullBuildImageTask c) tasks in
  let tasks := ensureTask (cloneTask c) tasks in
  let tasks := tasks ++ [compileTask c] in
  let tasks := tasks ++ [buildImageTask c] in
  let tasks := tasks ++ [docsTask c] in
  let tasks := tasks ++ [pushImageTask c] in
  tasks.

(** [tasks] is the shared collection; the function returns it after
    appending to it. *)
Definition generateServiceTasks (tasks : list Task) (baseDir : string)
           (spec : Spec) (cfg : Cfg) (name : string) (cmdOptions : CmdOptions)
  : M D (list Task) :=
  let repository :=
    List.find (fun r => String.eqb (repo_name r) name) (repositories spec) in
  let workDir := path_join [baseDir; "service-" +:+ name] in
  let* e := existsSync workDir in
  let* _ := (if negb e then mkdirSync workDir else ret tt) in
  match repository with
  | None => throw (TypeError "Cannot read property 'service' of undefined")
  | Some r =>
    match service r with
    | None => throw (TypeError "Cannot read property 'buildtype' of undefined")
    | Some svc =>
      if negb (String.eqb (buildtype svc) "heroku-buildpack") then
        throw (AssertionError "I only know how to do heroku buildpacks!")
      else
        ret (registerNodes (closureOf baseDir cfg name cmdOptions svc) tasks)
    end
  end.
End Tasks.
Arguments Task : clear implicits.

(** ** What a run may and must call *)

Section Observations.
Context {D : Type} `{!Collaborators D}.

(** No call of the run is in the class [P], however the run ends. *)
Definition never {A} (P : Call -> bool) (m : M D A) : Prop :=
  forall h r h' calls, m h = (r, h', calls) -> Forall (fun c => P c = false) calls.

(** A run that completes normally has made a call of the class [P]. *)
Definition surely {A} (P : Call -> bool) (m : M D A) : Prop :=
  forall h a h' calls, m h = (Normal a, h', calls) -> Exists (fun c => P c = true) calls.

(** The discipline of a stage whose output directory [dir] is stamped with
    [sources]:
    - on a stamped directory the run skips with [provides], asks the stamp
      store and nothing else, and leaves the host as it is;
    - otherwise the first call after the question removes [dir]; the
      stamp is written by the last call, after the work that rebuilds the
      directory: calls of the shape [rebuilt], which include a container
      run and write no stamp; then the run returns [provides] and [dir]
      is stamped; a run that throws has written no stamp;
    - after a run that completes, a second run skips with the same
      [provides]. *)
Definition StampedStage (run : M D RunValue) (dir : string) (sources : Val)
           (provides : gmap string Val) (rebuilt : list Call -> Prop) : Prop :=
  (forall h, stamped h dir sources = true ->
     run h = (Normal (Skip provides), h, [CDirStamped dir sources]))
  /\ (forall h r h' calls,
        stamped h dir sources = false -> run h = (r, h', calls) ->
        exists rest,
          calls = CDirStamped dir sources :: CRimraf dir :: rest
          /\ ((exists work,
                 r = Normal (Object provides)
                 /\ rest = work ++ [CStampDir dir sources]
                 /\ rebuilt work
                 /\ Forall (fun c => is_stampDir c = false) work
                 /\ Exists (fun c => is_dockerRun c = true) work
                 /\ stamped h' dir sources = true)
              \/ (exists e,
                    r = Throw e
                    /\ Forall (fun c => is_stampDir c = false) rest)))
  /\ (forall h v h' calls,
        run h = (Normal v, h', calls) ->
        (v = Skip provides \/ v = Object provides)
        /\ run h' = (Normal (Skip provides), h', [CDirStamped dir sources])).

(** A call that prepares the [env] and [cache] directories (lines
    134-141). *)
Definition preparesDirs (call : Call) : Prop :=
  match call with
  | CExistsSync _ | CRimraf _ | CMkdirSync _ => True
  | _ => False
  end.

(** The calls that rebuild the app directory of Service Compile (lines
    113-175): the repository is copied into the app directory; the
    buildpack's [detect] and then its [compile] run in the build image
    with the app directory bound at [/app]; in between, the [env] and
    [cache] directories are prepared; the Procfile of the app directory
    is looked for and read; and the entrypoint of some list of records
    is written into the app directory with mode 0o777. *)
Definition compileRebuilt (c : Closure) (requirements : gmap string Val)
           (work : list Call) : Prop :=
  let repoDir := prop requirements ("repo-" +:+ name c +:+ "-dir") in
  let appDir := compileAppDir c in
  let bpDir := prop requirements ("repo-" +:+ buildpackName c) in
  let envDir := path_join [workDir c; "env"] in
  let cacheDir := path_join [workDir c; "cache"] in
  let procfilePath := path_join [appDir; "Procfile"] in
  exists prepare procs,
    work = [CStep "Copy Source Repository";
            CCopy repoDir appDir;
            CStep "Buildpack Detect";
            CDockerRun {|
              run_image := buildImage c;
              run_command := ["/buildpack/bin/detect"; "/app"];
              run_env := None;
              run_binds := [toString bpDir +:+ ":/buildpack"; appDir +:+ ":/app"];
              run_logfile := workDir c +:+ "/detect.log";
              run_baseDir := baseDir c |};
            CStep "Buildpack Compile"]
           ++ prepare
           ++ [CDockerRun {|
                 run_image := buildImage c;
                 run_command := ["/buildpack/bin/compile"; "/app"; "/cache"; "/env"];
                 run_env := None;
                 run_binds := [toString bpDir +:+ ":/buildpack"; appDir +:+ ":/app";
                               envDir +:+ ":/env"; cacheDir +:+ ":/cache"];
                 run_logfile := workDir c +:+ "/compile.log";
                 run_baseDir := baseDir c |};
               CStep "Create Entrypoint Script";
               CExistsSync procfilePath;
               CReadFileSync procfilePath;
               CWriteFileSync (path_join [appDir; "entrypoint"])
                 (ENTRYPOINT_TEMPLATE procs) (Some 511%N)]
    /\ Forall preparesDirs prepare.

(** The calls that rebuild the docs directory of Service Generate Docs
    (lines 266-279): [mkdirp] of its parent, and the container run of
    [/app/entrypoint write-docs] in the stack image, with the base
    directory bound at [/basedir] and the docs directory of the service
    under it as the output directory. *)
Definition docsRebuilt (c : Closure) (requirements : gmap string Val)
           (work : list Call) : Prop :=
  work = [CMkdirp (path_dirname (docsDir c));
          CDockerRun {|
            run_image := stackImage c;
            run_command := ["/app/entrypoint"; "write-docs"];
            run_env := Some ["DOCS_OUTPUT_DIR=/basedir/docs/" +:+ name c];
            run_binds := [toString (prop requirements (builtAppDirKey c)) +:+ ":/app";
                          baseDir c +:+ ":/basedir"];
            run_logfile := workDir c +:+ "/generate-docs.log";
            run_baseDir := baseDir c |}].

(** Lines 198-202 of Service Build Image: the calls of the two probes. *)
Definition probeCalls (c : Closure) (tag : string) : list Call :=
  [CStep "Check for Existing Images"; CDockerImages (baseDir c);
   CDockerRegistryCheck tag].

(** [a] requires a key that [b] provides. *)
Definition requiresFrom (a b : Task D) : Prop :=
  exists k, In k (requires a) /\ In k (provides b).

(** The same, as a test. *)
Definition requiresFromb (a b : Task D) : bool :=
  existsb (fun k => existsb (String.eqb k) (provides b)) (requires a).

(** The chain of the specification: build-image requires the output of
    compile, and docs requires the output of build-image. *)
Definition strictChain (compile build docs : Task D) : Prop :=
  requiresFrom build compile /\ requiresFrom docs build.

End Observations.

(** ** A simulated host

    A small concrete host on which the tasks can be run: a local image
    store, a registry and one Procfile.  Every collaborator succeeds. *)

Module Sample.

Record Disk := {
  localImages : list Image;
  registry : list string;
  procfile : string }.

Definition onDisk (f : Disk -> Disk) (h : Host Disk) : Host Disk :=
  {| stamps := stamps h; disk := f (disk h) |}.

Definition addLocal (tag : string) (d : Disk) : Disk :=
  {| localImages := localImages d ++ [{| RepoTags := Some [tag] |}];
     registry := registry d;
     procfile := procfile d |}.

Definition addRemote (tag : string) (d : Disk) : Disk :=
  {| localImages := localImages d;
     registry := registry d ++ [tag];
     procfile := procfile d |}.

Definition ok {R} (r : R) : Ext Disk R := fun h => (Normal r, h).

Fixpoint joinWith (sep : string) (parts : list string) : string :=
  match parts with
  | [] => EmptyString
  | [p] => p
  | p :: ps => p +:+ sep +:+ joinWith sep ps
  end.

#[global] Instance collaborators : Collaborators Disk := {|
  fs_existsSync := fun _ => ok true;
  fs_mkdirSync := fun _ => ok tt;
  fs_readFileSync := fun _ h => (Normal (procfile (disk h)), h);
  fs_writeFileSync := fun _ _ _ => ok tt;
  ext_rimraf := fun p h =>
    (Normal tt, {| stamps := delete p (stamps h); disk := disk h |});
  ext_mkdirp := fun _ => ok tt;
  ext_copy := fun _ _ => ok tt;
  ext_gitClone := fun _ _ => ok tt;
  ext_dockerRun := fun _ => ok tt;
  ext_dockerPull := fun image _ h => (Normal tt, onDisk (addLocal image) h);
  ext_dockerImages := fun _ h => (Normal (localImages (disk h)), h);
  ext_dockerBuild := fun args h =>
    (Normal tt, onDisk (addLocal (build_tag args)) h);
  ext_dockerRegistryCheck := fun tag h =>
    (Normal (existsb (String.eqb tag) (registry (disk h))), h);
  ext_dockerPush := fun args h =>
    (Normal tt, onDisk (addRemote (toString (push_tag args))) h);
  path_join := joinWith "/";
  path_dirname := fun p => joinWith "/" (removelast (Str.split "/" p));
  ENTRYPOINT_TEMPLATE := fun procs =>
    joinWith (String "010" EmptyString)
      (map (fun p => proc_name p +:+ ") exec " +:+ proc_command p) procs);
  DOCKERFILE_TEMPLATE := fun stackImage => "FROM " +:+ stackImage |}.

Definition procfileText : string :=
  "web: node app.js" +:+ String "010" (
  "# comment" +:+ String "010" (String "010" "worker: node worker.js")).

Definition host (images : list Image) (tags : list string) : Host Disk :=
  {| stamps := ∅;
     disk := {| localImages := images; registry := tags; procfile := procfileText |} |}.

Definition spec : Spec := {|
  repositories := [
    {| repo_name := "auth";
       service := Some {| buildtype := "heroku-buildpack";
                          stack := "heroku-16";
                          buildpack := "https://github.com/heroku/heroku-buildpack-nodejs" |} |}
  ] |}.

Definition config : Cfg := {| repositoryPrefix := "taskcluster/" |}.

Definition closure (pushOpt : Val) : Closure := {|
  name := "auth";
  baseDir := "/build";
  workDir := "/build/service-auth";
  stackImage := "heroku/heroku:16";
  buildImage := "heroku/heroku:16-build";
  buildpackUrl := "https://github.com/heroku/heroku-buildpack-nodejs";
  buildpackName := "heroku-buildpack-nodejs";
  cfg := config;
  cmdOptions := {| push := pushOpt |} |}.

(** The closure without the push option, and with it. *)
Definition plain : Closure := closure VUndef.
Definition pushing : Closure := closure (VBool true).

Definition exactSource : string := "https://github.com/taskcluster/auth#abc123".

Definition authTag : string := "taskcluster/auth:abc123".

Definition authImage : Image := {| RepoTags := Some [authTag] |}.

Definition requirements (onRegistry : bool) : gmap string Val :=
  list_to_map [
    ("repo-auth-dir", VStr "/build/repo-auth");
    ("repo-auth-exact-source", VStr exactSource);
    ("docker-image-heroku/heroku:16", VUndef);
    ("docker-image-heroku/heroku:16-build", VUndef);
    ("repo-heroku-buildpack-nodejs", VStr "/build/repo-heroku-buildpack-nodejs");
    ("service-auth-built-app-dir", VStr "/build/service-auth/app");
    ("service-auth-docker-image", VStr authTag);
    ("service-auth-image-on-registry", VBool onRegistry)
  ].

End Sample.

(** * Properties *)

(** ** Strings *)

Module StrFacts.

Lemma app_nil_r (s : string) : s +:+ EmptyString = s.
Proof.
  induction s as [|c s IH]; [reflexivity|].
  change (String c (s +:+ EmptyString) = String c s). now rewrite IH.
Qed.

Lemma app_cons (c : ascii) (s t : string) : String c s +:+ t = String c (s +:+ t).
Proof. reflexivity. Qed.

Lemma app_nil_l (s : string) : EmptyString +:+ s = s.
Proof. reflexivity. Qed.

Lemma app_assoc (a b c : string) : (a +:+ b) +:+ c = a +:+ (b +:+ c).
Proof.
  induction a as [|x a IH]; [reflexivity|].
  rewrite !app_cons. now rewrite IH.
Qed.

Lemma app_snoc (a : string) (c : ascii) (m : string) :
  (a +:+ String c EmptyString) +:+ m = a +:+ String c m.
Proof. now rewrite app_assoc. Qed.

Lemma all_app (p : ascii -> bool) (a b : string) :
  Str.all p (a +:+ b) = Str.all p a && Str.all p b.
Proof.
  induction a as [|x a IH]; [reflexivity|].
  rewrite app_cons. simpl. rewrite IH. now rewrite andb_assoc.
Qed.

Lemma includes_app (c : ascii) (a b : string) :
  Str.includes c (a +:+ b) = Str.includes c a || Str.includes c b.
Proof.
  induction a as [|x a IH]; [reflexivity|].
  rewrite app_cons. simpl. rewrite IH. now rewrite orb_assoc.
Qed.

Lemma trimStart_all_space (s : string) :
  Str.all Str.is_space s = true -> Str.trimStart s = EmptyString.
Proof.
  induction s as [|c s IH]; simpl; [reflexivity|].
  intros [Hc Hs]%andb_true_iff. rewrite Hc. auto.
Qed.

Lemma trim_all_space (s : string) :
  Str.all Str.is_space s = true -> Str.trim s = EmptyString.
Proof. intros H. unfold Str.trim. now rewrite trimStart_all_space. Qed.

Lemma split_nonempty (sep : ascii) (s : string) : Str.split sep s <> [].
Proof.
  destruct s as [|c s]; simpl; [discriminate|].
  destruct (Ascii.eqb c sep); [discriminate|].
  destruct (Str.split sep s); discriminate.
Qed.

End StrFacts.

(** ** The matcher finds a match exactly on the strings of the shape *)

Module ReFacts.
Import StrFacts Re.

Section Quantifiers.
Context {R : Type}.
Implicit Types (k : string -> string -> option R) (p : ascii -> bool).

Lemma star_sound p s : forall acc k r,
  star p acc s k = Some r ->
  exists m rest, s = m +:+ rest /\ Str.all p m = true /\ k (acc +:+ m) rest = Some r.
Proof.
  induction s as [|c s IH]; intros acc k r; simpl.
  - intros H. exists EmptyString, EmptyString.
    rewrite !app_nil_r. repeat split; assumption.
  - destruct (p c) eqn:Hc.
    + destruct (star p (acc +:+ String c EmptyString) s k) as [r'|] eqn:Hs.
      * intros [= ->]. apply IH in Hs as (m & rest & -> & Hm & Hk).
        exists (String c m), rest. rewrite app_snoc in Hk.
        simpl. rewrite Hc, Hm. repeat split; assumption.
      * intros H. exists EmptyString, (String c s).
        rewrite !app_nil_r. repeat split; assumption.
    + intros H. exists EmptyString, (String c s).
      rewrite !app_nil_r. repeat split; assumption.
Qed.

Lemma star_complete p s : forall acc k m rest,
  s = m +:+ rest -> Str.all p m = true -> is_Some (k (acc +:+ m) rest) ->
  is_Some (star p acc s k).
Proof.
  induction s as [|c s IH]; intros acc k m rest Hs Hm Hk; simpl.
  - destruct m; [|discriminate]. rewrite app_nil_l in Hs. subst rest.
    now rewrite app_nil_r in Hk.
  - destruct m as [|d m].
    + rewrite app_nil_l in Hs. subst rest. rewrite app_nil_r in Hk.
      destruct (p c); [|assumption].
      destruct (star p (acc +:+ String c EmptyString) s k); [eauto|assumption].
    + rewrite app_cons in Hs. injection Hs as -> ->.
      simpl in Hm. apply andb_true_iff in Hm as [Hd Hm]. rewrite Hd.
      rewrite <- app_snoc in Hk.
      destruct (IH _ _ _ _ eq_refl Hm Hk) as [r ->]. eauto.
Qed.

Lemma plus_sound p s k r :
  plus p s k = Some r ->
  exists m rest, s = m +:+ rest /\ m <> EmptyString /\ Str.all p m = true
                 /\ k m rest = Some r.
Proof.
  destruct s as [|c s]; simpl; [discriminate|].
  destruct (p c) eqn:Hc; [|discriminate].
  intros (m & rest & -> & Hm & Hk)%star_sound.
  exists (String c m), rest. simpl. rewrite Hc, Hm. repeat split; [discriminate|assumption].
Qed.

Lemma plus_complete p s k m rest :
  s = m +:+ rest -> m <> EmptyString -> Str.all p m = true ->
  is_Some (k m rest) -> is_Some (plus p s k).
Proof.
  intros -> Hne Hm Hk. destruct m as [|c m]; [congruence|].
  rewrite app_cons. simpl in *. apply andb_true_iff in Hm as [Hc Hm]. rewrite Hc.
  eapply star_complete; eauto.
Qed.
End Quantifiers.

Lemma opt_sound {R} (c : ascii) (s : string) (k : string -> option R) (r : R) :
  opt c s k = Some r ->
  exists colon rest, s = colon +:+ rest
    /\ (colon = EmptyString \/ colon = String c EmptyString) /\ k rest = Some r.
Proof.
  destruct s as [|d s]; simpl.
  - intros H. exists EmptyString, EmptyString. auto.
  - destruct (Ascii.eqb_spec d c) as [->|Hne].
    + destruct (k s) as [r'|] eqn:Hs.
      * intros [= ->]. exists (String c EmptyString), s. auto.
      * intros H. exists EmptyString, (String c s). auto.
    + intros H. exists EmptyString, (String d s). auto.
Qed.

Lemma opt_complete {R} (c : ascii) (s : string) (k : string -> option R) colon rest :
  s = colon +:+ rest -> (colon = EmptyString \/ colon = String c EmptyString) ->
  is_Some (k rest) -> is_Some (opt c s k).
Proof.
  intros -> [->| ->] Hk.
  - change (is_Some (opt c rest k)). destruct rest as [|d s]; simpl; [assumption|].
    destruct (Ascii.eqb d c); [|assumption]. destruct (k s); eauto.
  - change (is_Some (opt c (String c rest) k)). simpl. rewrite Ascii.eqb_refl.
    destruct Hk as [r ->]. eauto.
Qed.

Lemma procfile_line_shape (t : string) :
  is_Some (procfile_line t) <-> lineShape t.
Proof.
  unfold procfile_line, lineShape. split.
  - intros [[g1 g2] H].
    apply plus_sound in H as (n & s1 & -> & Hn & Hnc & H).
    apply opt_sound in H as (colon & s2 & -> & Hcolon & H).
    apply plus_sound in H as (ws & s3 & -> & Hws & Hsp & H).
    apply star_sound in H as (cmd & s4 & -> & Hcmd & H).
    destruct s4; [|discriminate]. rewrite app_nil_r.
    exists n, colon, ws, cmd. auto 10.
  - intros (n & colon & ws & cmd & -> & Hn & Hnc & Hcolon & Hws & Hsp & Hcmd).
    eapply plus_complete; [reflexivity|assumption..|].
    eapply opt_complete; [reflexivity|assumption|].
    eapply plus_complete; [reflexivity|assumption..|].
    eapply (star_complete _ _ _ _ cmd EmptyString); [now rewrite app_nil_r|assumption|].
    simpl. eauto.
Qed.

End ReFacts.

Module GreedyFacts.
Import StrFacts Re.

(** A greedy star keeps the longest run when the continuation accepts it. *)
Lemma star_greedy {R} (p : ascii -> bool) (m : string) :
  forall acc rest (k : string -> string -> option R) r,
    Str.all p m = true -> stops p rest -> k (acc +:+ m) rest = Some r ->
    star p acc (m +:+ rest) k = Some r.
Proof.
  induction m as [|c m IH]; intros acc rest k r Hm Hstop Hk.
  - rewrite app_nil_l. rewrite app_nil_r in Hk.
    destruct rest as [|d rest]; simpl; [assumption|].
    simpl in Hstop. now rewrite Hstop.
  - rewrite app_cons. simpl in *. apply andb_true_iff in Hm as [Hc Hm].
    rewrite Hc. rewrite <- app_snoc in Hk. now rewrite (IH _ _ _ _ Hm Hstop Hk).
Qed.

Lemma plus_greedy {R} (p : ascii -> bool) (m rest : string)
      (k : string -> string -> option R) (r : R) :
  m <> EmptyString -> Str.all p m = true -> stops p rest -> k m rest = Some r ->
  plus p (m +:+ rest) k = Some r.
Proof.
  intros Hne Hm Hstop Hk. destruct m as [|c m]; [congruence|].
  rewrite app_cons. simpl in *. apply andb_true_iff in Hm as [Hc Hm]. rewrite Hc.
  now apply star_greedy.
Qed.

(** With a colon followed by white space, group 1 is everything up to
    the first colon and group 2 is what follows the white space. *)
Lemma procfile_line_colon (n ws cmd : string) :
  n <> EmptyString -> Str.all not_colon n = true ->
  ws <> EmptyString -> Str.all Str.is_space ws = true ->
  Str.all dot cmd = true -> stops Str.is_space cmd ->
  procfile_line (n +:+ ":" +:+ ws +:+ cmd) = Some (n, cmd).
Proof.
  intros Hn Hnc Hws Hsp Hcmd Hstop. unfold procfile_line.
  apply plus_greedy; [assumption..|reflexivity|].
  change (":" +:+ ws +:+ cmd) with (String ":" (ws +:+ cmd)).
  cbv beta iota delta [opt]. rewrite Ascii.eqb_refl.
  rewrite (plus_greedy Str.is_space ws cmd _ (n, cmd)); try assumption; [reflexivity|].
  rewrite <- (app_nil_r cmd) at 1.
  apply star_greedy; [assumption|exact I|]. now rewrite app_nil_l.
Qed.

End GreedyFacts.

(** ** The Procfile parser *)

Module ProcfileFacts.
Import StrFacts Re ReFacts Procfile.

Lemma parseLine_ignored (line : string) :
  ignored line = true -> parseLine line = Normal None.
Proof. unfold parseLine. now intros ->. Qed.

Lemma parseLine_accepts (line : string) :
  ignored line = false -> lineShape (Str.trim line) ->
  exists p, parseLine line = Normal (Some p).
Proof.
  unfold parseLine. intros -> [[g1 g2] ->]%procfile_line_shape. eauto.
Qed.

Lemma parseLine_rejects (line : string) :
  ignored line = false -> ~ lineShape (Str.trim line) ->
  parseLine line = Throw (unexpected line).
Proof.
  unfold parseLine. intros -> Hn.
  destruct (procfile_line (Str.trim line)) as [[g1 g2]|] eqn:E; [|reflexivity].
  exfalso. apply Hn, procfile_line_shape. eauto.
Qed.

Lemma parseLine_cases (line : string) :
  (ignored line = true /\ parseLine line = Normal None)
  \/ (ignored line = false /\ lineShape (Str.trim line)
      /\ exists p, parseLine line = Normal (Some p))
  \/ (ignored line = false /\ ~ lineShape (Str.trim line)
      /\ parseLine line = Throw (unexpected line)).
Proof.
  destruct (ignored line) eqn:Hi.
  - left. auto using parseLine_ignored.
  - right. destruct (procfile_line (Str.trim line)) as [g|] eqn:E.
    + left. assert (lineShape (Str.trim line)) by (apply procfile_line_shape; eauto).
      auto using parseLine_accepts.
    + right. assert (~ lineShape (Str.trim line)).
      { intros [g H]%procfile_line_shape. congruence. }
      auto using parseLine_rejects.
Qed.

(** The first line that throws decides the outcome of the whole [map]. *)
Lemma parseLines_throw (ls : list string) (e : Error) :
  parseLines ls = Throw e -> exists l, In l ls /\ parseLine l = Throw e.
Proof.
  induction ls as [|l ls IH]; simpl; [discriminate|].
  destruct (parseLine l) as [o|e'] eqn:El.
  - destruct (parseLines ls) as [ps|e'']; [discriminate|].
    intros [= ->]. destruct IH as (l' & Hin & Hl'); eauto.
  - intros [= ->]. eauto.
Qed.

Lemma parseLines_normal (ls : list string) (ps : list Proc) :
  parseLines ls = Normal ps -> forall l, In l ls -> exists o, parseLine l = Normal o.
Proof.
  revert ps. induction ls as [|l ls IH]; simpl; intros ps H l' Hin; [contradiction|].
  destruct (parseLine l) as [o|e] eqn:El; [|discriminate].
  destruct (parseLines ls) as [ps'|e] eqn:Els; [|discriminate].
  destruct Hin as [<-|Hin]; eauto.
Qed.

Lemma parseLines_total (ls : list string) :
  (forall l, In l ls -> exists o, parseLine l = Normal o) ->
  exists ps, parseLines ls = Normal ps.
Proof.
  induction ls as [|l ls IH]; simpl; intros H; [eauto|].
  destruct (H l) as [o ->]; [auto|].
  destruct IH as [ps ->]; eauto.
Qed.

Lemma parseLines_fails (ls : list string) (l : string) (e : Error) :
  In l ls -> parseLine l = Throw e -> exists e', parseLines ls = Throw e'.
Proof.
  intros Hin Hl. destruct (parseLines ls) as [ps|e'] eqn:E; [|eauto].
  destruct (parseLines_normal _ _ E _ Hin) as [o Ho]. congruence.
Qed.

End ProcfileFacts.

Module ProcfileClaims.
Import StrFacts Re ReFacts GreedyFacts Procfile ProcfileFacts.

Lemma space_not_hash (c : ascii) : Str.is_space c = true -> Ascii.eqb "#" c = false.
Proof.
  intros H. destruct (Ascii.eqb_spec "#" c) as [<-|]; [discriminate|reflexivity].
Qed.

Lemma blank_not_ignored (line : string) :
  line <> EmptyString -> Str.all Str.is_space line = true -> ignored line = false.
Proof.
  destruct line as [|c line]; [congruence|]. intros _ H. simpl in H.
  apply andb_true_iff in H as [Hc _]. unfold ignored.
  change (false || (Ascii.eqb "#" c && true) = false).
  now rewrite (space_not_hash _ Hc).
Qed.

Lemma parseLine_colon (line n ws cmd : string) :
  ignored line = false ->
  Str.trim line = n +:+ ":" +:+ ws +:+ cmd ->
  n <> EmptyString -> Str.all not_colon n = true ->
  ws <> EmptyString -> Str.all Str.is_space ws = true ->
  Str.all dot cmd = true -> stops Str.is_space cmd ->
  parseLine line =
    Normal (Some {| proc_name := n; proc_command := ShellQuote.quote cmd |}).
Proof.
  intros Hi Ht Hn Hnc Hws Hsp Hcmd Hstop. unfold parseLine.
  now rewrite Hi, Ht, procfile_line_colon.
Qed.

(** C4 (amended).  After the empty lines and the lines that start with a
    hash sign are discarded, a remaining line parses if and only if its
    trimmed text has the shape of the pattern: a non-empty name without a
    colon, an optional colon, at least one white space character, and a
    command; when the colon is there, the name is everything up to the
    first colon.  A remaining line of any other shape is answered by the
    error that holds the line.  The whole text parses if and only if every
    remaining line has the shape; otherwise the parse throws the error of
    an offending line and yields no records, as it does for every text
    with the line badline. *)
Theorem procfile_parses_iff_pattern_shape (text : string) :
  (forall line, ignored line = false ->
     ((exists p, parseLine line = Normal (Some p)) <-> lineShape (Str.trim line))
     /\ (~ lineShape (Str.trim line) -> parseLine line = Throw (unexpected line)))
  /\ (forall line n ws cmd,
        ignored line = false ->
        Str.trim line = n +:+ ":" +:+ ws +:+ cmd ->
        n <> EmptyString -> Str.all not_colon n = true ->
        ws <> EmptyString -> Str.all Str.is_space ws = true ->
        Str.all dot cmd = true -> stops Str.is_space cmd ->
        parseLine line =
          Normal (Some {| proc_name := n; proc_command := ShellQuote.quote cmd |}))
  /\ ((exists procs, parse text = Normal procs) <->
      (forall line, In line (Str.split "010" text) -> ignored line = false ->
                    lineShape (Str.trim line)))
  /\ (forall e, parse text = Throw e ->
        exists line, In line (Str.split "010" text) /\ ignored line = false
                     /\ ~ lineShape (Str.trim line) /\ e = unexpected line)
  /\ (In "badline" (Str.split "010" text) ->
      exists line, parse text = Throw (unexpected line)).
Proof.
  assert (Hthrow : forall e, parse text = Throw e ->
            exists line, In line (Str.split "010" text) /\ ignored line = false
                         /\ ~ lineShape (Str.trim line) /\ e = unexpected line).
  { intros e (l & Hin & Hl)%parseLines_throw. exists l.
    destruct (parseLine_cases l) as [[_ H]|[(_ & _ & [p H])|(Hi & Hn & H)]];
      try congruence.
    repeat split; try assumption. congruence. }
  split; [|split; [|split; [|split]]].
  - intros line Hi. split; [split|].
    + intros [p Hp]. destruct (parseLine_cases line) as [[H _]|[(_ & H & _)|(_ & _ & H)]];
        [congruence|assumption|congruence].
    + now apply parseLine_accepts.
    + now apply parseLine_rejects.
  - exact parseLine_colon.
  - split.
    + intros [procs Hp] line Hin Hi.
      destruct (parseLines_normal _ _ Hp _ Hin) as [o Ho].
      destruct (parseLine_cases line) as [[H _]|[(_ & H & _)|(_ & _ & H)]];
        [congruence|assumption|congruence].
    + intros H. apply parseLines_total. intros l Hin.
      destruct (parseLine_cases l) as [[_ Hl]|[(_ & _ & [p Hl])|(Hi & Hn & _)]]; eauto.
      exfalso. auto.
  - exact Hthrow.
  - intros Hin.
    destruct (parseLines_fails _ "badline" (unexpected "badline") Hin eq_refl) as [e He].
    destruct (Hthrow e He) as (line & _ & _ & _ & ->). eauto.
Qed.

Lemma procfile_parses_iff_pattern_shape_witness :
  exists line, parse "badline" = Throw (unexpected line).
Proof.
  apply (proj2 (proj2 (proj2 (proj2 (procfile_parses_iff_pattern_shape "badline"))))).
  simpl. auto.
Defined.

(** C4, as stated, fails.  The line [web:node] has the form of the
    specification (name, colon, no white space, command) and does not
    parse; the line [bad line] holds no colon and parses, with the name
    [bad] and the command [line].  So parsing a remaining line is not
    the same as having that form. *)
Lemma procfile_spec_form_counterexample :
  (specForm "web:node" /\ parse "web:node" = Throw (unexpected "web:node"))
  /\ (~ specForm "bad line"
      /\ parse "bad line" = Normal [{| proc_name := "bad"; proc_command := "line" |}])
  /\ ~ (forall line, ignored line = false ->
         ((exists p, parseLine line = Normal (Some p)) <-> specForm line)).
Proof.
  assert (Hweb : specForm "web:node").
  { exists "web", EmptyString, "node". repeat split. }
  split; [split; [exact Hweb|reflexivity]|].
  split; [split; [|reflexivity]|].
  - intros (n & ws & cmd & H & _).
    apply (f_equal (Str.includes ":")) in H.
    rewrite includes_app, (includes_app _ ":") in H. simpl in H.
    rewrite orb_true_r in H. discriminate.
  - intros H. destruct (proj2 (H "web:node" eq_refl) Hweb) as [p Hp].
    discriminate Hp.
Qed.

(** C5 (amended).  The four-line text yields exactly two records, in
    input order; the commands are the shell-quoted tokens, with their
    single quotes. *)
Theorem procfile_example_records :
  parse ("web: node app.js" +:+ String "010" (
         "# comment" +:+ String "010" (String "010" "worker: node worker.js")))
  = Normal [{| proc_name := "web"; proc_command := "'node app.js'" |};
            {| proc_name := "worker"; proc_command := "'node worker.js'" |}].
Proof. reflexivity. Qed.

(** C5, as stated, fails: the commands of the records are not the bare
    texts [node app.js] and [node worker.js]. *)
Lemma procfile_example_counterexample :
  parse ("web: node app.js" +:+ String "010" (
         "# comment" +:+ String "010" (String "010" "worker: node worker.js")))
  <> Normal [{| proc_name := "web"; proc_command := "node app.js" |};
             {| proc_name := "worker"; proc_command := "node worker.js" |}].
Proof. discriminate. Qed.

(** C10.  A line that is not empty and holds white space only is not
    skipped: the test for a blank line sees the untrimmed line, the
    pattern sees the trimmed, empty one.  The line is answered by the
    error, and every text with such a line fails to parse. *)
Theorem whitespace_only_line_throws (text line : string) :
  In line (Str.split "010" text) ->
  line <> EmptyString -> Str.all Str.is_space line = true ->
  ignored line = false
  /\ Str.trim line = EmptyString
  /\ parseLine line = Throw (unexpected line)
  /\ exists e, parse text = Throw e.
Proof.
  intros Hin Hne Hsp.
  assert (Hi : ignored line = false) by now apply blank_not_ignored.
  assert (Ht : Str.trim line = EmptyString) by now apply trim_all_space.
  assert (Hl : parseLine line = Throw (unexpected line)).
  { unfold parseLine. now rewrite Hi, Ht. }
  repeat split; try assumption.
  exact (parseLines_fails _ _ _ Hin Hl).
Qed.

Lemma whitespace_only_line_throws_witness :
  ignored " " = false
  /\ Str.trim " " = EmptyString
  /\ parseLine " " = Throw (unexpected " ")
  /\ exists e, parse " " = Throw e.
Proof.
  apply (whitespace_only_line_throws " " " ").
  - simpl. auto.
  - discriminate.
  - reflexivity.
Defined.

End ProcfileClaims.

(** ** The monad *)

Section MonadFacts.
Context {D : Type} `{!Collaborators D}.

Lemma bind_inv {A B} (m : M D A) (f : A -> M D B) h r h' calls :
  bind m f h = (r, h', calls) ->
  (exists a h1 l1 l2,
     m h = (Normal a, h1, l1) /\ f a h1 = (r, h', l2) /\ calls = l1 ++ l2)
  \/ (exists e, m h = (Throw e, h', calls) /\ r = Throw e).
Proof.
  unfold bind. destruct (m h) as [[[a|e] h1] l1].
  - destruct (f a h1) as [[r2 h2] l2] eqn:E. intros [= <- <- <-].
    left. exists a, h1, l1, l2. auto.
  - intros [= <- <- <-]. right. eauto.
Qed.

Lemma bind_normal {A B} (m : M D A) (f : A -> M D B) h a h1 l1 :
  m h = (Normal a, h1, l1) ->
  bind m f h = (let '(r, h2, l2) := f a h1 in (r, h2, l1 ++ l2)).
Proof. unfold bind. now intros ->. Qed.

Lemma bind_throw {A B} (m : M D A) (f : A -> M D B) h e h1 l1 :
  m h = (Throw e, h1, l1) -> bind m f h = (Throw e, h1, l1).
Proof. unfold bind. now intros ->. Qed.

Lemma call_inv {R} (c : Call) (f : Ext D R) h r h' calls :
  call c f h = (r, h', calls) -> f h = (r, h') /\ calls = [c].
Proof. unfold call. destruct (f h) as [r0 h0]. now intros [= <- <- <-]. Qed.

(** *** never *)

Lemma never_ret {A} P (a : A) : never P (ret (D:=D) a).
Proof. intros h r h' calls [= <- <- <-]. constructor. Qed.

Lemma never_throw {A} P (e : Error) : never P (throw (D:=D) (A:=A) e).
Proof. intros h r h' calls [= <- <- <-]. constructor. Qed.

Lemma never_lift {A} P (c : Completion A) : never P (lift (D:=D) c).
Proof. destruct c; [apply never_ret|apply never_throw]. Qed.

Lemma never_call {R} P (c : Call) (f : Ext D R) :
  P c = false -> never P (call c f).
Proof.
  intros Hc h r h' calls [_ ->]%call_inv. repeat constructor. assumption.
Qed.

Lemma never_step P (t : string) : P (CStep t) = false -> never P (step (D:=D) t).
Proof. intros Hc h r h' calls [= <- <- <-]. repeat constructor. assumption. Qed.

Lemma never_bind {A B} P (m : M D A) (f : A -> M D B) :
  never P m -> (forall a, never P (f a)) -> never P (bind m f).
Proof.
  intros Hm Hf h r h' calls
    [(a & h1 & l1 & l2 & H1 & H2 & ->)|(e & H1 & _)]%bind_inv.
  - apply Forall_app. split; [eapply Hm|eapply Hf]; eassumption.
  - eapply Hm; eassumption.
Qed.

Lemma never_forEach {A} P (f : A -> M D unit) (xs : list A) :
  (forall x, never P (f x)) -> never P (forEach f xs).
Proof.
  intros Hf. induction xs as [|x xs IH]; simpl.
  - apply never_ret.
  - apply never_bind; auto.
Qed.

(** *** surely *)

Lemma surely_call {R} (P : Call -> bool) (c : Call) (f : Ext D R) :
  P c = true -> surely P (call c f).
Proof. intros Hc h a h' calls [_ ->]%call_inv. now constructor. Qed.

Lemma surely_bind_l {A B} P (m : M D A) (f : A -> M D B) :
  surely P m -> surely P (bind m f).
Proof.
  intros Hm h b h' calls
    [(a & h1 & l1 & l2 & H1 & H2 & ->)|(e & _ & [=])]%bind_inv.
  apply Exists_app. left. eapply Hm; eassumption.
Qed.

Lemma surely_bind_r {A B} P (m : M D A) (f : A -> M D B) :
  (forall a, surely P (f a)) -> surely P (bind m f).
Proof.
  intros Hf h b h' calls
    [(a & h1 & l1 & l2 & H1 & H2 & ->)|(e & _ & [=])]%bind_inv.
  apply Exists_app. right. eapply Hf; eassumption.
Qed.

End MonadFacts.

Create HintDb quiet.
#[export] Hint Resolve never_ret never_throw never_lift never_forEach : quiet.
#[export] Hint Extern 1 (never _ (bind _ _)) => apply never_bind; [|intros ?] : quiet.
#[export] Hint Extern 1 (never _ (call _ _)) => apply never_call; reflexivity : quiet.
#[export] Hint Extern 1 (never _ (step _)) => apply never_step; reflexivity : quiet.
#[export] Hint Extern 2 (never _ (if ?b then _ else _)) => destruct b : quiet.

(** ** The stamped stages: Service Compile and Service Generate Docs *)

Section StageFacts.
Context {D : Type} `{!Collaborators D}.

Lemma stamped_stamp (h : Host D) (dir : string) (sources : Val) :
  stamped (stamp h dir sources) dir sources = true.
Proof.
  unfold stamped, stamp. simpl. apply bool_decide_eq_true. apply lookup_insert_eq.
Qed.

(** Every run of the form: ask the stamp store and skip, or else remove
    the directory, build, stamp and return, keeps the discipline. *)
Lemma stage_discipline (dir : string) (sources : Val)
      (provides : gmap string Val) (build : M D unit)
      (rebuilt : list Call -> Prop) :
  never is_stampDir build -> surely is_dockerRun build ->
  (forall h u h' calls, build h = (Normal u, h', calls) -> rebuilt calls) ->
  StampedStage
    (let* isStamped := dirStamped dir sources in
     if isStamped then ret (Skip provides)
     else
       let* _ := rimraf dir in
       let* _ := build in
       let* _ := stampDir dir sources in
       ret (Object provides))
    dir sources provides rebuilt.
Proof.
  intros Hquiet Hwork Hshape.
  set (run := bind (dirStamped dir sources) _).
  assert (Hskip : forall h, stamped h dir sources = true ->
            run h = (Normal (Skip provides), h, [CDirStamped dir sources])).
  { intros h Hs. unfold run, bind, dirStamped. now rewrite Hs. }
  assert (Hrebuild : forall h r h' calls,
            stamped h dir sources = false -> run h = (r, h', calls) ->
            exists rest,
              calls = CDirStamped dir sources :: CRimraf dir :: rest
              /\ ((exists work,
                     r = Normal (Object provides)
                     /\ rest = work ++ [CStampDir dir sources]
                     /\ rebuilt work
                     /\ Forall (fun c => is_stampDir c = false) work
                     /\ Exists (fun c => is_dockerRun c = true) work
                     /\ stamped h' dir sources = true)
                  \/ (exists e,
                        r = Throw e
                        /\ Forall (fun c => is_stampDir c = false) rest))).
  { intros h r h' calls Hs Hrun. unfold run in Hrun.
    rewrite (bind_normal _ _ h false h [CDirStamped dir sources]) in Hrun
      by (unfold dirStamped; now rewrite Hs).
    destruct (bind (rimraf dir) _ h) as [[r2 h2] l2] eqn:E.
    injection Hrun as <- <- <-.
    apply bind_inv in E as [(u & h1 & l1 & l2' & H1 & H2 & ->)|(e & H1 & ->)];
      apply call_inv in H1 as [_ ->].
    - apply bind_inv in H2 as [(u2 & h3 & l3 & l4 & H3 & H4 & ->)|(e & H3 & ->)].
      + unfold bind, stampDir, ret in H4. injection H4 as <- <- <-.
        exists (l3 ++ [CStampDir dir sources]). split; [reflexivity|].
        left. exists l3. repeat split.
        * eapply Hshape; eassumption.
        * eapply Hquiet; eassumption.
        * eapply Hwork; eassumption.
        * apply stamped_stamp.
      + exists l2'. split; [reflexivity|]. right. exists e.
        split; [reflexivity|]. eapply Hquiet; eassumption.
    - exists []. split; [reflexivity|]. right. exists e.
      split; [reflexivity|constructor]. }
  split; [exact Hskip|split; [exact Hrebuild|]].
  intros h v h' calls Hrun. destruct (stamped h dir sources) eqn:Hs.
  - rewrite (Hskip h Hs) in Hrun. injection Hrun as <- <- <-. auto.
  - destruct (Hrebuild _ _ _ _ Hs Hrun)
      as (rest & -> & [(work & Hr & _ & _ & _ & _ & Hst)|(e & Hr & _)]);
      [|discriminate].
    injection Hr as ->. auto.
Qed.

Lemma compileBuild_never_stamps (c : Closure) (requirements : gmap string Val) :
  never is_stampDir (compileBuild c requirements).
Proof.
  unfold compileBuild, copy, dockerRun, existsSync, rimraf, mkdirSync,
    readFileSync, writeFileSync.
  cbv zeta. auto 60 with quiet.
Qed.

Lemma compileBuild_runs_container (c : Closure) (requirements : gmap string Val) :
  surely is_dockerRun (compileBuild c requirements).
Proof.
  unfold compileBuild. cbv zeta.
  do 3 (apply surely_bind_r; intros ?).
  apply surely_bind_l, surely_call. reflexivity.
Qed.

Lemma docsBuild_never_stamps (c : Closure) (requirements : gmap string Val) :
  never is_stampDir (docsBuild c requirements).
Proof. unfold docsBuild, mkdirp, dockerRun. cbv zeta. auto with quiet. Qed.

Lemma docsBuild_runs_container (c : Closure) (requirements : gmap string Val) :
  surely is_dockerRun (docsBuild c requirements).
Proof.
  unfold docsBuild. cbv zeta. apply surely_bind_r; intros ?.
  apply surely_call. reflexivity.
Qed.

Ltac next_call H Hm a la :=
  let g := fresh "g" in
  let lb := fresh "lb" in
  let e := fresh "e" in
  apply bind_inv in H as [(a & g & la & lb & Hm & H & ->)|(e & _ & [=])].

(** The calls of a build of Service Compile that completes, and the
    Procfile it read. *)
Lemma compileBuild_completed (c : Closure) (requirements : gmap string Val)
      (h h' : Host D) (u : unit) (calls : list Call) :
  compileBuild c requirements h = (Normal u, h', calls) ->
  let repoDir := prop requirements ("repo-" +:+ name c +:+ "-dir") in
  let appDir := compileAppDir c in
  let bpDir := prop requirements ("repo-" +:+ buildpackName c) in
  let envDir := path_join [workDir c; "env"] in
  let cacheDir := path_join [workDir c; "cache"] in
  let procfilePath := path_join [appDir; "Procfile"] in
  exists prepare g g' text procs,
    calls = [CStep "Copy Source Repository";
             CCopy repoDir appDir;
             CStep "Buildpack Detect";
             CDockerRun {|
               run_image := buildImage c;
               run_command := ["/buildpack/bin/detect"; "/app"];
               run_env := None;
               run_binds := [toString bpDir +:+ ":/buildpack"; appDir +:+ ":/app"];
               run_logfile := workDir c +:+ "/detect.log";
               run_baseDir := baseDir c |};
             CStep "Buildpack Compile"]
            ++ prepare
            ++ [CDockerRun {|
                  run_image := buildImage c;
                  run_command := ["/buildpack/bin/compile"; "/app"; "/cache"; "/env"];
                  run_env := None;
                  run_binds := [toString bpDir +:+ ":/buildpack"; appDir +:+ ":/app";
                                envDir +:+ ":/env"; cacheDir +:+ ":/cache"];
                  run_logfile := workDir c +:+ "/compile.log";
                  run_baseDir := baseDir c |};
                CStep "Create Entrypoint Script";
                CExistsSync procfilePath;
                CReadFileSync procfilePath;
                CWriteFileSync (path_join [appDir; "entrypoint"])
                  (ENTRYPOINT_TEMPLATE procs) (Some 511%N)]
    /\ Forall preparesDirs prepare
    /\ fs_readFileSync procfilePath g = (Normal text, g')
    /\ Procfile.parse text = Normal procs.
Proof.
  unfold compileBuild. cbv zeta. intros H.
  next_call H H1 a1 l1. unfold step in H1. injection H1 as _ <- <-.
  next_call H H2 a2 l2. apply call_inv in H2 as [_ ->].
  next_call H H3 a3 l3. unfold step in H3. injection H3 as _ <- <-.
  next_call H H4 a4 l4. apply call_inv in H4 as [_ ->].
  next_call H H5 a5 l5. unfold step in H5. injection H5 as _ <- <-.
  next_call H H6 exists_env l6. apply call_inv in H6 as [_ ->].
  next_call H H7 a7 l7. next_call H H8 a8 l8.
  next_call H H9 a9 l9. apply call_inv in H9 as [_ ->].
  next_call H H10 a10 l10. unfold step in H10. injection H10 as _ <- <-.
  next_call H H11 exists_procfile l11. apply call_inv in H11 as [_ ->].
  destruct exists_procfile; [|discriminate H]. simpl in H.
  next_call H H12 text l12. apply call_inv in H12 as [H12 ->].
  next_call H H13 procs l13.
  destruct (Procfile.parse text) as [procs'|e'] eqn:Hparse; [|discriminate H13].
  unfold lift, ret in H13. injection H13 as <- <- <-.
  apply call_inv in H as [_ ->].
  set (P := fun call => match call with
                        | CExistsSync _ | CRimraf _ | CMkdirSync _ => false
                        | _ => true
                        end).
  assert (Hl7 : Forall (fun call => P call = false) l7).
  { match type of H7 with ?m _ = _ => assert (Hn : never P m) end;
      [|exact (Hn _ _ _ _ H7)].
    unfold rimraf. destruct exists_env; auto with quiet. }
  assert (Hl8 : Forall (fun call => P call = false) l8).
  { match type of H8 with ?m _ = _ => assert (Hn : never P m) end;
      [|exact (Hn _ _ _ _ H8)].
    apply never_forEach. intros x. unfold existsSync, mkdirSync.
    auto with quiet. }
  eexists (CExistsSync _ :: l7 ++ l8), _, _, text, procs'.
  split; [simpl; rewrite <- !List.app_assoc; reflexivity|].
  split; [|split; eassumption].
  constructor; [exact I|]. apply Forall_app. split.
  - eapply List.Forall_impl; [|exact Hl7]. intros [] Hx; try exact I; discriminate Hx.
  - eapply List.Forall_impl; [|exact Hl8]. intros [] Hx; try exact I; discriminate Hx.
Qed.

Lemma compileBuild_rebuilds (c : Closure) (requirements : gmap string Val)
      (h : Host D) (u : unit) (h' : Host D) (calls : list Call) :
  compileBuild c requirements h = (Normal u, h', calls) ->
  compileRebuilt c requirements calls.
Proof.
  intros (prepare & g & g' & text & procs & Hcalls & Hprep & _)%compileBuild_completed.
  exists prepare, procs. split; assumption.
Qed.

Lemma docsBuild_rebuilds (c : Closure) (requirements : gmap string Val)
      (h : Host D) (u : unit) (h' : Host D) (calls : list Call) :
  docsBuild c requirements h = (Normal u, h', calls) ->
  docsRebuilt c requirements calls.
Proof.
  unfold docsBuild, docsRebuilt. cbv zeta.
  intros [(a & g & la & lb & H1 & H2 & ->)|(e & _ & [=])]%bind_inv.
  apply call_inv in H1 as [_ ->]. apply call_inv in H2 as [_ ->]. reflexivity.
Qed.


End StageFacts.

(** ** Registration *)

Section EnsureTaskFacts.
Context {D : Type} `{!Collaborators D}.

Lemma findByTitle_none (t : string) (tasks : list (Task D)) :
  findByTitle t tasks = None <-> forall x, In x tasks -> title x <> t.
Proof.
  unfold findByTitle. split.
  - intros H x Hin Heq. apply (find_none _ _ H) in Hin.
    rewrite Heq, String.eqb_refl in Hin. discriminate.
  - intros H. destruct (find _ tasks) as [x|] eqn:E; [|reflexivity].
    apply find_some in E as [Hin Heq%String.eqb_eq]. now apply H in Hin.
Qed.

Lemma findByTitle_some (t : string) (tasks : list (Task D)) (x : Task D) :
  In x tasks -> title x = t -> is_Some (findByTitle t tasks).
Proof.
  intros Hin Heq. destruct (findByTitle t tasks) eqn:E; [eauto|].
  exfalso. now apply (proj1 (findByTitle_none t tasks) E x).
Qed.

Lemma ensureTask_present (task : Task D) (tasks : list (Task D)) :
  (exists x, In x tasks /\ title x = title task) -> ensureTask task tasks = tasks.
Proof.
  intros (x & Hin & Heq). unfold ensureTask.
  now destruct (findByTitle_some _ _ _ Hin Heq) as [y ->].
Qed.

Lemma ensureTask_absent (task : Task D) (tasks : list (Task D)) :
  (forall x, In x tasks -> title x <> title task) ->
  ensureTask task tasks = tasks ++ [task].
Proof.
  intros H. unfold ensureTask. now rewrite (proj2 (findByTitle_none _ _) H).
Qed.

Lemma ensureTask_has_title (task : Task D) (tasks : list (Task D)) :
  exists x, In x (ensureTask task tasks) /\ title x = title task.
Proof.
  unfold ensureTask. destruct (findByTitle (title task) tasks) as [x|] eqn:E.
  - apply find_some in E as [Hin Heq%String.eqb_eq]. eauto.
  - exists task. split; [|reflexivity]. apply in_or_app. right. now left.
Qed.

Lemma filter_fresh (t : string) (tasks : list (Task D)) :
  (forall x, In x tasks -> title x <> t) ->
  List.filter (fun x => String.eqb (title x) t) tasks = [].
Proof.
  induction tasks as [|x xs IH]; intros Hfresh; [reflexivity|]. simpl.
  destruct (String.eqb_spec (title x) t) as [E|_].
  - exfalso. apply (Hfresh x); [now left|assumption].
  - apply IH. intros y Hy. apply Hfresh. now right.
Qed.

(** C9.  [ensureTask] leaves the collection as it is when a node with the
    title of the candidate is in it; of two candidates with the same
    title the second is never added, and on a collection without the
    title the first is the one node with that title. *)
Theorem ensureTask_first_wins (tasks : list (Task D)) (t1 t2 : Task D) :
  ((exists x, In x tasks /\ title x = title t1) -> ensureTask t1 tasks = tasks)
  /\ (title t1 = title t2 ->
      ensureTask t2 (ensureTask t1 tasks) = ensureTask t1 tasks)
  /\ (title t1 = title t2 ->
      (forall x, In x tasks -> title x <> title t1) ->
      ensureTask t2 (ensureTask t1 tasks) = tasks ++ [t1]
      /\ List.filter (fun x => String.eqb (title x) (title t1))
           (ensureTask t2 (ensureTask t1 tasks)) = [t1]).
Proof.
  split; [apply ensureTask_present|].
  assert (Hsecond : title t1 = title t2 ->
            ensureTask t2 (ensureTask t1 tasks) = ensureTask t1 tasks).
  { intros Heq. apply ensureTask_present. rewrite <- Heq. apply ensureTask_has_title. }
  split; [exact Hsecond|].
  intros Heq Hfresh. rewrite (Hsecond Heq), (ensureTask_absent _ _ Hfresh).
  split; [reflexivity|].
  rewrite List.filter_app, (filter_fresh _ _ Hfresh). simpl.
  now rewrite String.eqb_refl.
Qed.

End EnsureTaskFacts.

(** ** Keys *)

Module KeyFacts.
Import StrFacts.

Lemma app_inv_head (s a b : string) : s +:+ a = s +:+ b -> a = b.
Proof.
  induction s as [|c s IH]; [trivial|].
  rewrite !app_cons. intros [= H]. auto.
Qed.

Lemma service_key_neq (n a b : string) :
  a <> b -> "service-" +:+ n +:+ a <> "service-" +:+ n +:+ b.
Proof. intros Hne H. now do 2 apply app_inv_head in H. Qed.

End KeyFacts.

(** ** Service Build Image *)

Section BuildImageFacts.
Context {D : Type} `{!Collaborators D}.
Import KeyFacts.

Lemma buildImageProvides_tag (c : Closure) (tag : string) (b : bool) :
  prop (buildImageProvides c tag b) (dockerImageKey c) = VStr tag.
Proof.
  unfold prop, buildImageProvides. rewrite lookup_insert_ne.
  - now rewrite lookup_singleton_eq.
  - apply service_key_neq. discriminate.
Qed.

Lemma buildImageProvides_onRegistry (c : Closure) (tag : string) (b : bool) :
  prop (buildImageProvides c tag b) (onRegistryKey c) = VBool b.
Proof. unfold prop, buildImageProvides. now rewrite lookup_insert_eq. Qed.

Lemma buildImageProvides_declared (c : Closure) (tag : string) (b : bool) (k : string) :
  In k (provides (buildImageTask c)) -> is_Some (buildImageProvides c tag b !! k).
Proof.
  intros [<-|[<-|[]]].
  - pose proof (buildImageProvides_tag c tag b) as H. unfold prop in H.
    destruct (buildImageProvides c tag b !! dockerImageKey c); [eauto|discriminate].
  - unfold buildImageProvides. rewrite lookup_insert_eq. eauto.
Qed.

(** A tag that is in the local store makes the run skip after the two
    probes, whatever the registry answers. *)
Lemma buildImageRun_local (c : Closure) (requirements : gmap string Val)
      (tag : string) (h h1 h2 : Host D) (images : list Image) (b : bool) :
  imageTag c requirements = Normal tag ->
  ext_dockerImages (baseDir c) h = (Normal images, h1) ->
  existsb (hasTag tag) images = true ->
  ext_dockerRegistryCheck tag h1 = (Normal b, h2) ->
  buildImageRun c requirements h
  = (Normal (Skip (buildImageProvides c tag b)), h2, probeCalls c tag).
Proof.
  intros Htag Himages Hlocal Hreg.
  unfold buildImageRun, bind, lift, step, dockerImages, dockerRegistryCheck, call, ret.
  rewrite Htag. simpl. rewrite Himages, Hreg, Hlocal. simpl.
  reflexivity.
Qed.

Lemma probeCalls_neither_pull_nor_build (c : Closure) (tag : string) :
  Forall (fun call => is_dockerPull call = false /\ is_dockerBuild call = false)
         (probeCalls c tag).
Proof. repeat constructor. Qed.

(** C6.  When the computed tag is in the local image store and on the
    registry, the run of Service Build Image skips with its provides
    after the two probes: it calls neither [dockerPull] nor
    [dockerBuild]. *)
Theorem build_image_local_and_remote_skips (c : Closure)
        (requirements : gmap string Val) (tag : string)
        (h h1 h2 : Host D) (images : list Image) :
  imageTag c requirements = Normal tag ->
  ext_dockerImages (baseDir c) h = (Normal images, h1) ->
  existsb (hasTag tag) images = true ->
  ext_dockerRegistryCheck tag h1 = (Normal true, h2) ->
  exists calls providesMap,
    run (buildImageTask c) requirements h = (Normal (Skip providesMap), h2, calls)
    /\ Forall (fun call => is_dockerPull call = false /\ is_dockerBuild call = false)
              calls
    /\ (forall k, In k (provides (buildImageTask c)) -> is_Some (providesMap !! k)).
Proof.
  intros Htag Himages Hlocal Hreg.
  exists (probeCalls c tag), (buildImageProvides c tag true).
  split; [|split].
  - now apply (buildImageRun_local c requirements tag h h1 h2 images true).
  - apply probeCalls_neither_pull_nor_build.
  - apply buildImageProvides_declared.
Qed.

(** C7 (amended).  When the computed tag is in the local image store, the
    run of Service Build Image skips the build and reuses the local image:
    no [dockerPull], no [dockerBuild].  The image-on-registry value is the
    answer of the registry check: true when the image is on the registry
    too, false when it is not. *)
Theorem build_image_local_reports_registry_answer (c : Closure)
        (requirements : gmap string Val) (tag : string)
        (h h1 h2 : Host D) (images : list Image) (onRegistry : bool) :
  imageTag c requirements = Normal tag ->
  ext_dockerImages (baseDir c) h = (Normal images, h1) ->
  existsb (hasTag tag) images = true ->
  ext_dockerRegistryCheck tag h1 = (Normal onRegistry, h2) ->
  exists calls providesMap,
    run (buildImageTask c) requirements h = (Normal (Skip providesMap), h2, calls)
    /\ Forall (fun call => is_dockerPull call = false /\ is_dockerBuild call = false)
              calls
    /\ prop providesMap (dockerImageKey c) = VStr tag
    /\ prop providesMap (onRegistryKey c) = VBool onRegistry.
Proof.
  intros Htag Himages Hlocal Hreg.
  exists (probeCalls c tag), (buildImageProvides c tag onRegistry).
  split; [|split; [|split]].
  - now apply (buildImageRun_local c requirements tag h h1 h2 images onRegistry).
  - apply probeCalls_neither_pull_nor_build.
  - apply buildImageProvides_tag.
  - apply buildImageProvides_onRegistry.
Qed.

End BuildImageFacts.

(** ** Service Push Image and Pull Docker Image *)

Section PushFacts.
Context {D : Type} `{!Collaborators D}.

(** C8.  With the push option on and a true image-on-registry value in
    the requirements, the run of Service Push Image throws the error that
    names the tag; it makes no call, so no [dockerPush], and leaves the
    host as it is. *)
Theorem push_image_refuses_image_on_registry (c : Closure)
        (requirements : gmap string Val) (h : Host D) :
  truthy (push (cmdOptions c)) = true ->
  prop requirements (onRegistryKey c) = VBool true ->
  run (pushImageTask c) requirements h
  = (Throw (alreadyOnRegistry (prop requirements (dockerImageKey c))), h, []).
Proof.
  intros Hpush Hreg. simpl. unfold pushImageRun. now rewrite Hpush, Hreg.
Qed.

(** After a push that succeeds, line 312 throws. *)
Lemma pushImageRun_after_push (c : Closure) (requirements : gmap string Val)
      (h h1 : Host D) :
  truthy (push (cmdOptions c)) = true ->
  truthy (prop requirements (onRegistryKey c)) = false ->
  let args := {| push_logfile := workDir c +:+ "/docker-push.log";
                 push_tag := prop requirements (dockerImageKey c);
                 push_baseDir := baseDir c |} in
  ext_dockerPush args h = (Normal tt, h1) ->
  pushImageRun c requirements h
  = (Throw (ReferenceError "provides is not defined"), h1, [CDockerPush args]).
Proof.
  intros Hpush Hreg args Hcall. unfold pushImageRun, bind, dockerPush, call, throw.
  rewrite Hpush, Hreg. simpl. fold args. now rewrite Hcall.
Qed.

(** A pull that succeeds makes the run return [undefined]. *)
Lemma pullStackImage_returns_undefined (c : Closure)
      (requirements : gmap string Val) (h h1 : Host D) :
  ext_dockerPull (stackImage c) (baseDir c) h = (Normal tt, h1) ->
  run (pullStackImageTask c) requirements h
  = (Normal Undefined, h1, [CDockerPull (stackImage c) (baseDir c)]).
Proof.
  intros Hcall. simpl. unfold bind, dockerPull, call, ret. now rewrite Hcall.
Qed.

Lemma pullBuildImage_returns_undefined (c : Closure)
      (requirements : gmap string Val) (h h1 : Host D) :
  ext_dockerPull (buildImage c) (baseDir c) h = (Normal tt, h1) ->
  run (pullBuildImageTask c) requirements h
  = (Normal Undefined, h1, [CDockerPull (buildImage c) (baseDir c)]).
Proof.
  intros Hcall. simpl. unfold bind, dockerPull, call, ret. now rewrite Hcall.
Qed.

End PushFacts.

(** ** The nodes of one service *)

Section GraphFacts.
Context {D : Type} `{!Collaborators D}.
Import StrFacts KeyFacts.

(** A call that completes appends the four stage nodes of the service, in
    the order compile, build-image, docs, push. *)
Lemma generateServiceTasks_stage_nodes (tasks : list (Task D)) (baseDir : string)
      (spec : Spec) (cfg : Cfg) (n : string) (cmdOptions : CmdOptions)
      (h h' : Host D) (ts : list (Task D)) (calls : list Call) :
  generateServiceTasks tasks baseDir spec cfg n cmdOptions h = (Normal ts, h', calls) ->
  exists (c : Closure) (shared : list (Task D)),
    name c = n
    /\ ts = shared ++ [compileTask c; buildImageTask c; docsTask c; pushImageTask c].
Proof.
  unfold generateServiceTasks. cbv zeta.
  intros [(e & h1 & l1 & l2 & _ & H & _)|(e & _ & [=])]%bind_inv.
  apply bind_inv in H as [(u & h2 & l3 & l4 & _ & H & _)|(e' & _ & [=])].
  destruct (find _ (repositories spec)) as [r|]; [|discriminate].
  destruct (service r) as [svc|]; [|discriminate].
  destruct (negb _); [discriminate|].
  unfold ret in H. injection H as <- _ _.
  set (c := closureOf baseDir cfg n cmdOptions svc).
  exists c, (ensureTask (cloneTask c)
               (ensureTask (pullBuildImageTask c)
                  (ensureTask (pullStackImageTask c) tasks))).
  split; [reflexivity|].
  unfold registerNodes. cbv zeta. now rewrite <- !List.app_assoc.
Qed.

Lemma docs_requires_no_key_of_build_image (c : Closure) (k : string) :
  In k (requires (docsTask c)) -> ~ In k (provides (buildImageTask c)).
Proof.
  unfold docsTask, buildImageTask, exactSourceKey, builtAppDirKey,
    dockerImageKey, onRegistryKey. simpl.
  intros [<-|[<-|[<-|[]]]] [H|[H|[]]]; try discriminate H.
  - now apply service_key_neq in H.
  - now apply service_key_neq in H.
Qed.

Lemma build_image_requires_no_key_of_docs (c : Closure) (k : string) :
  In k (requires (buildImageTask c)) -> ~ In k (provides (docsTask c)).
Proof.
  unfold docsTask, buildImageTask, exactSourceKey, builtAppDirKey, docsDirKey.
  simpl.
  intros [<-|[<-|[<-|[]]]] [H|[]]; discriminate H.
Qed.

(** C3 (amended).  For every service name, the stage nodes that a call
    appends are compile, build-image, docs and push, under their titles.
    Build-image requires a key that compile provides, and so does docs:
    for both it is the key [service-<name>-built-app-dir] of the built
    application directory.  Docs requires no key that build-image
    provides, and build-image requires no key that docs provides:
    compile comes before build-image and before docs, and requires and
    provides put no order between build-image and docs. *)
Theorem stage_nodes_require_compile_output (tasks : list (Task D)) (baseDir : string)
        (spec : Spec) (cfg : Cfg) (n : string) (cmdOptions : CmdOptions)
        (h h' : Host D) (ts : list (Task D)) (calls : list Call) :
  generateServiceTasks tasks baseDir spec cfg n cmdOptions h = (Normal ts, h', calls) ->
  exists shared compile build docs push,
    ts = shared ++ [compile; build; docs; push]
    /\ title compile = "Service " +:+ n +:+ " - Compile"
    /\ title build = "Service " +:+ n +:+ " - Build Image"
    /\ title docs = "Service " +:+ n +:+ " - Generate Docs"
    /\ title push = "Service " +:+ n +:+ " - Push Image"
    /\ requiresFrom build compile
    /\ requiresFrom docs compile
    /\ ~ requiresFrom docs build
    /\ ~ requiresFrom build docs
    /\ (let key := "service-" +:+ n +:+ "-built-app-dir" in
        In key (provides compile)
        /\ In key (requires build)
        /\ In key (requires docs)).
Proof.
  intros (c & shared & <- & ->)%generateServiceTasks_stage_nodes.
  exists shared, (compileTask c), (buildImageTask c), (docsTask c), (pushImageTask c).
  repeat split.
  - exists (builtAppDirKey c). simpl. auto.
  - exists (builtAppDirKey c). simpl. auto.
  - intros (k & Hreq & Hprov). exact (docs_requires_no_key_of_build_image c k Hreq Hprov).
  - intros (k & Hreq & Hprov). exact (build_image_requires_no_key_of_docs c k Hreq Hprov).
  - simpl. auto.
  - simpl. auto.
  - simpl. auto.
Qed.

End GraphFacts.

(** ** The tasks on the simulated host *)

Module Examples.

(** C2: the code at the inputs where it departs from the claim.  With the
    push option on and an image that is not on the registry, the run of
    Service Push Image pushes and then throws a ReferenceError instead of
    returning; the runs of the two Pull Docker Image nodes pull and
    return [undefined], not a map with their docker-image key. *)
Theorem push_and_pull_runs_return_no_map :
  run (pushImageTask Sample.pushing) (Sample.requirements false) (Sample.host [] [])
  = (Throw (ReferenceError "provides is not defined"),
     Sample.host [] [Sample.authTag],
     [CDockerPush {| push_logfile := "/build/service-auth/docker-push.log";
                     push_tag := VStr Sample.authTag;
                     push_baseDir := "/build" |}])
  /\ (provides (pullStackImageTask Sample.plain) = ["docker-image-heroku/heroku:16"]
      /\ run (pullStackImageTask Sample.plain) ∅ (Sample.host [] [])
         = (Normal Undefined,
            Sample.host [{| RepoTags := Some ["heroku/heroku:16"] |}] [],
            [CDockerPull "heroku/heroku:16" "/build"]))
  /\ (provides (pullBuildImageTask Sample.plain) = ["docker-image-heroku/heroku:16-build"]
      /\ run (pullBuildImageTask Sample.plain) ∅ (Sample.host [] [])
         = (Normal Undefined,
            Sample.host [{| RepoTags := Some ["heroku/heroku:16-build"] |}] [],
            [CDockerPull "heroku/heroku:16-build" "/build"])).
Proof. repeat split; reflexivity. Qed.

(** C3, as stated, fails: for the service [auth] the call registers the
    seven nodes, and Generate Docs requires no key that Build Image
    provides, so the three stage nodes are no strict chain. *)
Lemma stage_nodes_strict_chain_counterexample :
  generateServiceTasks [] "/build" Sample.spec Sample.config "auth"
    {| push := VUndef |} (Sample.host [] [])
  = (Normal [pullStackImageTask Sample.plain; pullBuildImageTask Sample.plain;
             cloneTask Sample.plain; compileTask Sample.plain;
             buildImageTask Sample.plain; docsTask Sample.plain;
             pushImageTask Sample.plain],
     Sample.host [] [], [CExistsSync "/build/service-auth"])
  /\ requiresFromb (docsTask Sample.plain) (buildImageTask Sample.plain) = false
  /\ ~ strictChain (compileTask Sample.plain) (buildImageTask Sample.plain)
                   (docsTask Sample.plain).
Proof.
  split; [reflexivity|split; [reflexivity|]].
  intros [_ (k & Hreq & Hprov)].
  exact (docs_requires_no_key_of_build_image Sample.plain k Hreq Hprov).
Qed.

(** C7, as stated, fails: with the tag in the local store and on the
    registry, the run skips and the image-on-registry value is true. *)
Lemma build_image_local_on_registry_counterexample :
  existsb (hasTag Sample.authTag) [Sample.authImage] = true
  /\ exists providesMap,
       run (buildImageTask Sample.plain) (Sample.requirements false)
           (Sample.host [Sample.authImage] [Sample.authTag])
       = (Normal (Skip providesMap), Sample.host [Sample.authImage] [Sample.authTag],
          probeCalls Sample.plain Sample.authTag)
       /\ prop providesMap "service-auth-image-on-registry" = VBool true
       /\ prop providesMap "service-auth-image-on-registry" <> VBool false.
Proof.
  split; [reflexivity|]. eexists. split; [reflexivity|].
  split; [reflexivity|discriminate].
Qed.


Lemma stage_nodes_require_compile_output_witness :
  exists shared compile build docs push,
    registerNodes Sample.plain [] = shared ++ [compile; build; docs; push]
    /\ title compile = "Service " +:+ "auth" +:+ " - Compile"
    /\ title build = "Service " +:+ "auth" +:+ " - Build Image"
    /\ title docs = "Service " +:+ "auth" +:+ " - Generate Docs"
    /\ title push = "Service " +:+ "auth" +:+ " - Push Image"
    /\ requiresFrom build compile
    /\ requiresFrom docs compile
    /\ ~ requiresFrom docs build
    /\ ~ requiresFrom build docs
    /\ (let key := "service-" +:+ "auth" +:+ "-built-app-dir" in
        In key (provides compile)
        /\ In key (requires build)
        /\ In key (requires docs)).
Proof.
  apply (stage_nodes_require_compile_output [] "/build" Sample.spec Sample.config
           "auth" {| push := VUndef |} (Sample.host [] []) (Sample.host [] [])
           (registerNodes Sample.plain []) [CExistsSync "/build/service-auth"]).
  reflexivity.
Defined.

Lemma build_image_local_and_remote_skips_witness :
  exists calls providesMap,
    run (buildImageTask Sample.plain) (Sample.requirements false)
        (Sample.host [Sample.authImage] [Sample.authTag])
    = (Normal (Skip providesMap), Sample.host [Sample.authImage] [Sample.authTag], calls)
    /\ Forall (fun call => is_dockerPull call = false /\ is_dockerBuild call = false)
              calls
    /\ (forall k, In k (provides (buildImageTask Sample.plain)) -> is_Some (providesMap !! k)).
Proof.
  apply (build_image_local_and_remote_skips Sample.plain (Sample.requirements false)
           Sample.authTag (Sample.host [Sample.authImage] [Sample.authTag])
           (Sample.host [Sample.authImage] [Sample.authTag])
           (Sample.host [Sample.authImage] [Sample.authTag]) [Sample.authImage]);
    reflexivity.
Defined.

Lemma build_image_local_reports_registry_answer_witness :
  exists calls providesMap,
    run (buildImageTask Sample.plain) (Sample.requirements false) (Sample.host [Sample.authImage] [])
    = (Normal (Skip providesMap), Sample.host [Sample.authImage] [], calls)
    /\ Forall (fun call => is_dockerPull call = false /\ is_dockerBuild call = false)
              calls
    /\ prop providesMap (dockerImageKey Sample.plain) = VStr Sample.authTag
    /\ prop providesMap (onRegistryKey Sample.plain) = VBool false.
Proof.
  apply (build_image_local_reports_registry_answer Sample.plain (Sample.requirements false)
           Sample.authTag (Sample.host [Sample.authImage] []) (Sample.host [Sample.authImage] [])
           (Sample.host [Sample.authImage] []) [Sample.authImage] false);
    reflexivity.
Defined.

Lemma push_image_refuses_image_on_registry_witness :
  run (pushImageTask Sample.pushing) (Sample.requirements true)
      (Sample.host [Sample.authImage] [Sample.authTag])
  = (Throw (alreadyOnRegistry
              (prop (Sample.requirements true) (dockerImageKey Sample.pushing))),
     Sample.host [Sample.authImage] [Sample.authTag], []).
Proof.
  apply (push_image_refuses_image_on_registry Sample.pushing (Sample.requirements true));
    reflexivity.
Defined.

Lemma ensureTask_first_wins_witness :
  let t1 := pullStackImageTask Sample.plain in
  let t2 := {| title := "Pull Docker Image heroku/heroku:16";
               requires := []; provides := [];
               run := fun _ => ret (D:=Sample.Disk) Undefined |} in
  ensureTask t2 (ensureTask t1 []) = [] ++ [t1]
  /\ List.filter (fun x => String.eqb (title x) (title t1))
       (ensureTask t2 (ensureTask t1 [])) = [t1].
Proof.
  intros t1 t2.
  apply (proj2 (proj2 (ensureTask_first_wins [] t1 t2))).
  - reflexivity.
  - intros x [].
Defined.

End Examples.

(** * Further properties of the code *)

(** ** Splitting, replacing and trimming *)

Module SplitFacts.
Import StrFacts.

Lemma includes_cons_false (sep c : ascii) (s : string) :
  Str.includes sep (String c s) = false ->
  Ascii.eqb c sep = false /\ Str.includes sep s = false.
Proof. simpl. now intros [? ?]%orb_false_iff. Qed.

Lemma split_no_sep (sep : ascii) (s : string) :
  Str.includes sep s = false -> Str.split sep s = [s].
Proof.
  induction s as [|c s IH]; [reflexivity|].
  intros [Hc Hs]%includes_cons_false. simpl. now rewrite Hc, (IH Hs).
Qed.

Lemma split_app (sep : ascii) (a b : string) :
  Str.split sep (a +:+ String sep b) = Str.split sep a ++ Str.split sep b.
Proof.
  induction a as [|c a IH].
  - rewrite app_nil_l. simpl. now rewrite Ascii.eqb_refl.
  - rewrite app_cons. simpl. destruct (Ascii.eqb c sep).
    + now rewrite IH.
    + rewrite IH. pose proof (split_nonempty sep a) as Hne.
      destruct (Str.split sep a) as [|x xs]; [congruence|reflexivity].
Qed.

Lemma split_first (sep : ascii) (a b : string) :
  Str.includes sep a = false ->
  Str.split sep (a +:+ String sep b) = a :: Str.split sep b.
Proof. intros Ha. now rewrite split_app, (split_no_sep _ _ Ha). Qed.

Lemma replace_absent (a b : ascii) (s : string) :
  Str.includes a s = false -> Str.replace a b s = s.
Proof.
  induction s as [|c s IH]; [reflexivity|].
  intros [Hc Hs]%includes_cons_false. simpl. now rewrite Hc, (IH Hs).
Qed.

Lemma replace_first (a b : ascii) (x y : string) :
  Str.includes a x = false ->
  Str.replace a b (x +:+ String a y) = x +:+ String b y.
Proof.
  induction x as [|c x IH].
  - intros _. rewrite !app_nil_l. simpl. now rewrite Ascii.eqb_refl.
  - intros [Hc Hx]%includes_cons_false. rewrite !app_cons. simpl.
    now rewrite Hc, (IH Hx).
Qed.

Lemma trimEnd_all_space (w : string) :
  Str.all Str.is_space w = true -> Str.trimEnd w = EmptyString.
Proof.
  induction w as [|c w IH]; [reflexivity|]. simpl.
  intros [Hc Hw]%andb_true_iff. now rewrite (IH Hw), Hc.
Qed.

Lemma trimEnd_app_space (t w : string) :
  Str.all Str.is_space w = true -> Str.trimEnd (t +:+ w) = Str.trimEnd t.
Proof.
  intros Hw. induction t as [|c t IH].
  - rewrite app_nil_l. now apply trimEnd_all_space.
  - rewrite app_cons. simpl. now rewrite IH.
Qed.

Lemma trimStart_app_space (s w : string) :
  Str.all Str.is_space w = true ->
  Str.trimStart (s +:+ w) = Str.trimStart s +:+ w
  \/ (Str.trimStart (s +:+ w) = EmptyString /\ Str.trimStart s = EmptyString).
Proof.
  intros Hw. induction s as [|c s IH].
  - right. rewrite app_nil_l. split; [now apply trimStart_all_space|reflexivity].
  - rewrite app_cons. simpl. destruct (Str.is_space c); [exact IH|].
    left. reflexivity.
Qed.

(** White space at the end of a string does not change what [trim]
    returns. *)
Lemma trim_app_space (s w : string) :
  Str.all Str.is_space w = true -> Str.trim (s +:+ w) = Str.trim s.
Proof.
  intros Hw. unfold Str.trim.
  destruct (trimStart_app_space s w Hw) as [->|[-> ->]]; [|reflexivity].
  now apply trimEnd_app_space.
Qed.

End SplitFacts.

(** ** More on the Procfile parser *)

Module ProcfileMore.
Import StrFacts SplitFacts Re ReFacts Procfile ProcfileFacts ProcfileClaims.

(** What the two groups of a match are. *)
Lemma procfile_line_captures (t g1 g2 : string) :
  procfile_line t = Some (g1, g2) ->
  exists colon ws,
    t = g1 +:+ colon +:+ ws +:+ g2
    /\ g1 <> EmptyString /\ Str.all not_colon g1 = true
    /\ (colon = EmptyString \/ colon = ":")
    /\ ws <> EmptyString /\ Str.all Str.is_space ws = true
    /\ Str.all dot g2 = true.
Proof.
  unfold procfile_line. intros H.
  apply plus_sound in H as (n & s1 & -> & Hn & Hnc & H).
  apply opt_sound in H as (colon & s2 & -> & Hcolon & H).
  apply plus_sound in H as (ws & s3 & -> & Hws & Hsp & H).
  apply star_sound in H as (cmd & s4 & -> & Hcmd & H).
  destruct s4; [|discriminate]. rewrite app_nil_l in H. injection H as <- <-.
  rewrite app_nil_r. exists colon, ws. auto 10.
Qed.

Lemma parseLine_none (line : string) :
  parseLine line = Normal None <-> ignored line = true.
Proof.
  split; [|apply parseLine_ignored].
  unfold parseLine. destruct (ignored line); [reflexivity|].
  destruct (procfile_line (Str.trim line)) as [[g1 g2]|]; discriminate.
Qed.

Lemma parseLines_app (xs ys : list string) :
  parseLines (xs ++ ys) =
    match parseLines xs with
    | Throw e => Throw e
    | Normal ps =>
        match parseLines ys with
        | Throw e => Throw e
        | Normal qs => Normal (ps ++ qs)
        end
    end.
Proof.
  induction xs as [|x xs IH]; simpl.
  - now destruct (parseLines ys).
  - destruct (parseLine x) as [o|e]; [|reflexivity]. rewrite IH.
    destruct (parseLines xs) as [ps|e]; [|reflexivity].
    destruct (parseLines ys) as [qs|e]; [|reflexivity].
    now rewrite List.app_assoc.
Qed.

(** A text that parses yields one record for each line that is not
    skipped, in the order of the lines; each record is what the
    callback returns for its line. *)
Theorem parse_one_record_per_line (text : string) (procs : list Proc) :
  parse text = Normal procs ->
  Forall2 (fun line p => parseLine line = Normal (Some p))
          (List.filter (fun line => negb (ignored line)) (Str.split "010" text))
          procs.
Proof.
  unfold parse. generalize (Str.split "010" text). intros ls. revert procs.
  induction ls as [|l ls IH]; simpl; intros procs H.
  - injection H as <-. constructor.
  - destruct (parseLine l) as [o|e] eqn:El; [|discriminate].
    destruct (parseLines ls) as [ps|e]; [|discriminate].
    injection H as <-. destruct o as [p|]; simpl.
    + destruct (ignored l) eqn:Hi.
      * apply parseLine_ignored in Hi. congruence.
      * simpl. constructor; auto.
    + apply parseLine_none in El. rewrite El. simpl. auto.
Qed.

Lemma parse_one_record_per_line_witness :
  Forall2 (fun line p => parseLine line = Normal (Some p))
          (List.filter (fun line => negb (ignored line))
                       (Str.split "010" Sample.procfileText))
          [{| proc_name := "web"; proc_command := "'node app.js'" |};
           {| proc_name := "worker"; proc_command := "'node worker.js'" |}].
Proof. apply (parse_one_record_per_line Sample.procfileText). reflexivity. Defined.

(** The name of a record is never empty and holds no colon; the trimmed
    line is the name, an optional colon, white space, and a text without
    line terminators whose shell-quoted form is the command. *)
Theorem parseLine_record_fields (line : string) (p : Proc) :
  parseLine line = Normal (Some p) ->
  ignored line = false
  /\ proc_name p <> EmptyString
  /\ Str.includes ":" (proc_name p) = false
  /\ exists colon ws cmd,
       Str.trim line = proc_name p +:+ colon +:+ ws +:+ cmd
       /\ (colon = EmptyString \/ colon = ":")
       /\ ws <> EmptyString /\ Str.all Str.is_space ws = true
       /\ Str.all dot cmd = true
       /\ proc_command p = ShellQuote.quote cmd.
Proof.
  unfold parseLine. destruct (ignored line); [discriminate|].
  destruct (procfile_line (Str.trim line)) as [[g1 g2]|] eqn:E; [|discriminate].
  intros [= <-]. simpl.
  apply procfile_line_captures in E
    as (colon & ws & Ht & Hn & Hnc & Hcolon & Hws & Hsp & Hcmd).
  repeat split; try assumption.
  - clear Ht Hn. induction g1 as [|c g1 IH]; [reflexivity|]. simpl in *.
    apply andb_true_iff in Hnc as [Hc Hnc]. unfold not_colon in Hc.
    apply negb_true_iff in Hc. now rewrite Hc, IH.
  - exists colon, ws, g2. auto 10.
Qed.

Lemma parseLine_record_fields_witness :
  ignored "web: node app.js" = false
  /\ "web" <> EmptyString
  /\ Str.includes ":" "web" = false
  /\ exists colon ws cmd,
       Str.trim "web: node app.js" = "web" +:+ colon +:+ ws +:+ cmd
       /\ (colon = EmptyString \/ colon = ":")
       /\ ws <> EmptyString /\ Str.all Str.is_space ws = true
       /\ Str.all dot cmd = true
       /\ "'node app.js'" = ShellQuote.quote cmd.
Proof.
  apply (parseLine_record_fields "web: node app.js"
           {| proc_name := "web"; proc_command := "'node app.js'" |}).
  reflexivity.
Defined.

(** A line feed at the end of the text changes nothing: the last, empty
    line is skipped. *)
Theorem parse_trailing_newline (text : string) :
  parse (text +:+ String "010" EmptyString) = parse text.
Proof.
  unfold parse. rewrite split_app, parseLines_app. simpl.
  destruct (parseLines (Str.split "010" text)) as [ps|e]; [|reflexivity].
  now rewrite List.app_nil_r.
Qed.

(** A comment that is indented is not skipped: the test for the hash
    sign sees the untrimmed line.  Such a line is parsed as a record or
    makes the parse throw. *)
Theorem indented_comment_not_skipped (ws rest : string) :
  ws <> EmptyString -> Str.all Str.is_space ws = true ->
  let line := ws +:+ String "#" rest in
  ignored line = false /\ parseLine line <> Normal None.
Proof.
  intros Hne Hsp line.
  assert (Hi : ignored line = false).
  { subst line. destruct ws as [|c ws]; [congruence|]. rewrite app_cons.
    simpl in Hsp. apply andb_true_iff in Hsp as [Hc _]. unfold ignored.
    change (false || (Ascii.eqb "#" c && true) = false).
    now rewrite (space_not_hash _ Hc). }
  split; [exact Hi|]. intros H%parseLine_none. congruence.
Qed.

Lemma indented_comment_not_skipped_witness :
  ignored " # x" = false /\ parseLine " # x" <> Normal None.
Proof.
  apply (indented_comment_not_skipped " " " x"); [discriminate|reflexivity].
Defined.

(** A carriage return at the end of a line that is not empty (a line of
    a text with CR LF line ends) does not change the record of the line,
    nor whether the line is skipped. *)
Theorem parseLine_carriage_return (line : string) (o : option Proc) :
  line <> EmptyString ->
  parseLine line = Normal o ->
  parseLine (line +:+ String "013" EmptyString) = Normal o.
Proof.
  intros Hne. unfold parseLine.
  assert (Hi : ignored (line +:+ String "013" EmptyString) = ignored line).
  { destruct line as [|c line]; [congruence|]. reflexivity. }
  rewrite Hi, trim_app_space by reflexivity.
  destruct (ignored line); [trivial|].
  destruct (procfile_line (Str.trim line)) as [[g1 g2]|]; [trivial|discriminate].
Qed.

Lemma parseLine_carriage_return_witness :
  parseLine ("web: node app.js" +:+ String "013" EmptyString)
  = Normal (Some {| proc_name := "web"; proc_command := "'node app.js'" |}).
Proof.
  apply (parseLine_carriage_return "web: node app.js"); [discriminate|reflexivity].
Defined.

End ProcfileMore.

(** ** The names computed by generateServiceTasks (lines 31-35) *)

Section ClosureFacts.
Context {D : Type} `{!Collaborators D}.
Import StrFacts SplitFacts KeyFacts.

Lemma app_neq_self (s t : string) : t <> EmptyString -> s <> s +:+ t.
Proof.
  intros Ht H. apply Ht. apply (app_inv_head s). now rewrite app_nil_r.
Qed.

Lemma startsWith_app (p x : string) : Str.startsWith p (p +:+ x) = true.
Proof.
  induction p as [|a p IH]; [reflexivity|].
  rewrite app_cons. simpl. now rewrite Ascii.eqb_refl, IH.
Qed.

(** The stack image is [heroku/] and the stack with its first hyphen
    turned into a colon (the stack itself when it has no hyphen); the
    build image is the stack image with [-build] appended, so the two
    always differ. *)
Theorem closureOf_images (baseDir : string) (cfg : Cfg) (n : string)
        (cmdOptions : CmdOptions) (svc : Service) :
  let c := closureOf baseDir cfg n cmdOptions svc in
  buildImage c = stackImage c +:+ "-build"
  /\ stackImage c <> buildImage c
  /\ (forall a b, stack svc = a +:+ "-" +:+ b -> Str.includes "-" a = false ->
                  stackImage c = "heroku/" +:+ a +:+ ":" +:+ b)
  /\ (Str.includes "-" (stack svc) = false ->
      stackImage c = "heroku/" +:+ stack svc).
Proof.
  intros c.
  assert (Hb : buildImage c = stackImage c +:+ "-build").
  { unfold c, closureOf. simpl. now rewrite StrFacts.app_assoc. }
  split; [exact Hb|split; [|split]].
  - rewrite Hb. apply app_neq_self. discriminate.
  - intros a b Hs Ha. unfold c, closureOf. simpl.
    rewrite Hs. change (a +:+ "-" +:+ b) with (a +:+ String "-" b).
    now rewrite (replace_first _ _ _ _ Ha).
  - intros Hs. unfold c, closureOf. simpl. now rewrite (replace_absent _ _ _ Hs).
Qed.

Lemma closureOf_buildpackName_eq (baseDir : string) (cfg : Cfg) (n : string)
      (cmdOptions : CmdOptions) (svc : Service) :
  buildpackName (closureOf baseDir cfg n cmdOptions svc)
  = if Str.startsWith "https://github.com/heroku/" (buildpack svc) then
      toString (from_option VStr VUndef (Str.split "/" (buildpack svc) !! 4%nat))
    else Str.replace "/" "_" (buildpack svc).
Proof. reflexivity. Qed.

(** The name of the buildpack.  For a URL under
    [https://github.com/heroku/] it is the path segment after that
    prefix.  For any other URL it is the URL with its first slash, and
    only that one, turned into an underscore. *)
Theorem closureOf_buildpackName (baseDir : string) (cfg : Cfg) (n : string)
        (cmdOptions : CmdOptions) (svc : Service) :
  let c := closureOf baseDir cfg n cmdOptions svc in
  (forall seg rest,
     buildpack svc = "https://github.com/heroku/" +:+ seg +:+ rest ->
     Str.includes "/" seg = false ->
     (rest = EmptyString \/ exists r, rest = String "/" r) ->
     buildpackName c = seg)
  /\ (forall a b,
        Str.startsWith "https://github.com/heroku/" (buildpack svc) = false ->
        buildpack svc = a +:+ "/" +:+ b -> Str.includes "/" a = false ->
        buildpackName c = a +:+ "_" +:+ b)
  /\ (Str.startsWith "https://github.com/heroku/" (buildpack svc) = false ->
      Str.includes "/" (buildpack svc) = false ->
      buildpackName c = buildpack svc).
Proof.
  intros c. split; [|split].
  - intros seg rest Hurl Hseg Hrest. unfold c.
    rewrite closureOf_buildpackName_eq, Hurl, startsWith_app.
    change ("https://github.com/heroku/" +:+ seg +:+ rest)
      with ("https:" +:+ String "/" (EmptyString +:+ String "/"
              ("github.com" +:+ String "/" ("heroku" +:+ String "/" (seg +:+ rest))))).
    rewrite !split_first by reflexivity.
    destruct Hrest as [->|[r ->]].
    + rewrite app_nil_r, (split_no_sep _ _ Hseg). reflexivity.
    + rewrite (split_first _ _ _ Hseg). reflexivity.
  - intros a b Hp Hurl Ha. unfold c.
    rewrite closureOf_buildpackName_eq, Hp, Hurl. change (a +:+ "/" +:+ b) with (a +:+ String "/" b).
    now rewrite (replace_first _ _ _ _ Ha).
  - intros Hp Hurl. unfold c.
    now rewrite closureOf_buildpackName_eq, Hp, (replace_absent _ _ _ Hurl).
Qed.

End ClosureFacts.

(** ** More on registration and on the graph of one call *)

Section RegistrationMore.
Context {D : Type} `{!Collaborators D}.
Import StrFacts KeyFacts.

Lemma ensureTask_extends (task : Task D) (tasks : list (Task D)) :
  (ensureTask task tasks = tasks /\ exists x, In x tasks /\ title x = title task)
  \/ (ensureTask task tasks = tasks ++ [task]
      /\ forall x, In x tasks -> title x <> title task).
Proof.
  unfold ensureTask. destruct (findByTitle (title task) tasks) as [x|] eqn:E.
  - left. split; [reflexivity|].
    apply find_some in E as [Hin Heq%String.eqb_eq]. eauto.
  - right. split; [reflexivity|]. now apply findByTitle_none.
Qed.

Lemma ensureTask_adds (task : Task D) (tasks : list (Task D)) :
  exists added, ensureTask task tasks = tasks ++ added
                /\ (added = [] \/ added = [task]).
Proof.
  destruct (ensureTask_extends task tasks) as [[-> _]|[-> _]].
  - exists []. now rewrite List.app_nil_r; auto.
  - eauto.
Qed.

Lemma ensureTask_incl (task x : Task D) (tasks : list (Task D)) :
  In x tasks -> In x (ensureTask task tasks).
Proof.
  intros Hin. destruct (ensureTask_extends task tasks) as [[-> _]|[-> _]];
    [assumption|]. apply in_or_app. now left.
Qed.

Lemma ensureTask_in (task x : Task D) (tasks : list (Task D)) :
  In x (ensureTask task tasks) -> In x tasks \/ x = task.
Proof.
  destruct (ensureTask_extends task tasks) as [[-> _]|[-> _]]; [now left|].
  intros [Hin|[<-|[]]]%in_app_or; auto.
Qed.

(** [ensureTask] keeps the titles of the collection distinct. *)
Theorem ensureTask_keeps_titles_distinct (task : Task D) (tasks : list (Task D)) :
  List.NoDup (map title tasks) -> List.NoDup (map title (ensureTask task tasks)).
Proof.
  intros Hnd. destruct (ensureTask_extends task tasks) as [[-> _]|[-> Hfresh]];
    [assumption|].
  rewrite List.map_app. simpl. apply List.NoDup_app.
  - assumption.
  - repeat constructor. intros [].
  - intros t Hin [<-|[]].
    apply in_map_iff in Hin as (x & Heq & Hx).
    exact (Hfresh x Hx Heq).
Qed.

(** The four stage nodes of a closure. *)
Lemma registerNodes_eq (c : Closure) (tasks : list (Task D)) :
  registerNodes c tasks
  = ensureTask (cloneTask c)
      (ensureTask (pullBuildImageTask c) (ensureTask (pullStackImageTask c) tasks))
    ++ [compileTask c; buildImageTask c; docsTask c; pushImageTask c].
Proof. unfold registerNodes. cbv zeta. now rewrite <- !List.app_assoc. Qed.

(** Registration only appends: the nodes that were in the collection
    stay where they are, between zero and three shared nodes are added
    after them, and the four stage nodes come last. *)
Theorem registerNodes_appends (c : Closure) (tasks : list (Task D)) :
  exists shared,
    registerNodes c tasks
    = tasks ++ shared ++ [compileTask c; buildImageTask c; docsTask c; pushImageTask c]
    /\ length shared <= 3
    /\ forall x, In x shared ->
         x = pullStackImageTask c \/ x = pullBuildImageTask c \/ x = cloneTask c.
Proof.
  rewrite registerNodes_eq.
  destruct (ensureTask_adds (pullStackImageTask c) tasks) as (a1 & -> & H1).
  destruct (ensureTask_adds (pullBuildImageTask c) (tasks ++ a1)) as (a2 & -> & H2).
  destruct (ensureTask_adds (cloneTask c) ((tasks ++ a1) ++ a2)) as (a3 & -> & H3).
  exists (a1 ++ a2 ++ a3). split; [|split].
  - now rewrite <- !List.app_assoc.
  - rewrite !length_app.
    destruct H1 as [->| ->], H2 as [->| ->], H3 as [->| ->]; simpl; lia.
  - intros x [Hx|[Hx|Hx]%in_app_or]%in_app_or.
    + destruct H1 as [->| ->]; [destruct Hx|]. destruct Hx as [<-|[]]. auto.
    + destruct H2 as [->| ->]; [destruct Hx|]. destruct Hx as [<-|[]]. auto.
    + destruct H3 as [->| ->]; [destruct Hx|]. destruct Hx as [<-|[]]. auto.
Qed.

(** A second service with the same stack and buildpack shares the pull
    and clone nodes of the first: its registration adds its four stage
    nodes and nothing else.  For the same closure twice, this gives the
    stage nodes a second time: they are pushed without a look at the
    titles. *)
Theorem registerNodes_shares_prerequisites (c1 c2 : Closure) (tasks : list (Task D)) :
  stackImage c1 = stackImage c2 ->
  buildImage c1 = buildImage c2 ->
  buildpackName c1 = buildpackName c2 ->
  registerNodes c2 (registerNodes c1 tasks)
  = registerNodes c1 tasks
    ++ [compileTask c2; buildImageTask c2; docsTask c2; pushImageTask c2].
Proof.
  intros Hs Hb Hn. rewrite (registerNodes_eq c2). f_equal.
  assert (Hhas : forall t : Task D, (title t = title (pullStackImageTask c1)
                            \/ title t = title (pullBuildImageTask c1)
                            \/ title t = title (cloneTask c1)) ->
                 exists x, In x (registerNodes c1 tasks) /\ title x = title t).
  { intros t Ht. rewrite registerNodes_eq.
    destruct Ht as [Ht|[Ht|Ht]]; rewrite Ht.
    - destruct (ensureTask_has_title (pullStackImageTask c1) tasks) as (x & Hx & E).
      exists x. split; [|exact E].
      apply in_or_app. left. now do 2 apply ensureTask_incl.
    - destruct (ensureTask_has_title (pullBuildImageTask c1)
                  (ensureTask (pullStackImageTask c1) tasks)) as (x & Hx & E).
      exists x. split; [|exact E]. apply in_or_app. left. now apply ensureTask_incl.
    - destruct (ensureTask_has_title (cloneTask c1)
                  (ensureTask (pullBuildImageTask c1)
                     (ensureTask (pullStackImageTask c1) tasks))) as (x & Hx & E).
      exists x. split; [|exact E]. apply in_or_app. now left. }
  rewrite (ensureTask_present (pullStackImageTask c2)).
  2:{ apply Hhas. left. simpl. now rewrite Hs. }
  rewrite (ensureTask_present (pullBuildImageTask c2)).
  2:{ apply Hhas. right. left. simpl. now rewrite Hb. }
  apply ensureTask_present. apply Hhas. right. right. simpl. now rewrite Hn.
Qed.

End RegistrationMore.

(** ** The outcome of generateServiceTasks *)

Section GenerateMore.
Context {D : Type} `{!Collaborators D}.
Import StrFacts KeyFacts.

Lemma generateServiceTasks_inv (tasks : list (Task D)) (baseDir : string)
      (spec : Spec) (cfg : Cfg) (n : string) (cmdOptions : CmdOptions)
      (h h' : Host D) (r : Completion (list (Task D))) (calls : list Call) :
  generateServiceTasks tasks baseDir spec cfg n cmdOptions h = (r, h', calls) ->
  let workDir := path_join [baseDir; "service-" +:+ n] in
  (calls = [CExistsSync workDir] \/ calls = [CExistsSync workDir; CMkdirSync workDir])
  /\ forall ts, r = Normal ts ->
       exists rep svc,
         List.find (fun x => String.eqb (repo_name x) n) (repositories spec) = Some rep
         /\ service rep = Some svc
         /\ buildtype svc = "heroku-buildpack"
         /\ ts = registerNodes (closureOf baseDir cfg n cmdOptions svc) tasks.
Proof.
  unfold generateServiceTasks. cbv zeta. intros H.
  apply bind_inv in H as [(e & h1 & l1 & l2 & H1 & H & ->)|(e & H1 & ->)];
    apply call_inv in H1 as [_ ->]; [|split; [now left|discriminate]].
  apply bind_inv in H as [(u & h2 & l3 & l4 & H2 & H & ->)|(e' & H2 & ->)].
  - assert (Hl3 : l3 = [] \/ l3 = [CMkdirSync (path_join [baseDir; "service-" +:+ n])]).
    { destruct e; simpl in H2.
      - unfold ret in H2. injection H2 as _ _ <-. now left.
      - apply call_inv in H2 as [_ ->]. now right. }
    assert (Hl4 : l4 = []).
    { unfold throw, ret in H.
      destruct (find _ (repositories spec)) as [rep|]; [|now injection H as _ _ <-].
      destruct (service rep) as [svc|]; [|now injection H as _ _ <-].
      destruct (negb (String.eqb _ _)); now injection H as _ _ <-. }
    subst l4. split.
    + destruct Hl3 as [->| ->]; simpl; auto.
    + intros ts ->.
      destruct (find _ (repositories spec)) as [rep|]; [|discriminate].
      destruct (service rep) as [svc|] eqn:Hsvc; [|discriminate].
      destruct (String.eqb_spec (buildtype svc) "heroku-buildpack") as [Hb|Hb];
        simpl in H; [|discriminate].
      unfold ret in H. injection H as <- _. eauto 10.
  - split; [|discriminate].
    destruct e; simpl in H2; [unfold ret in H2; discriminate|].
    apply call_inv in H2 as [_ ->]. now right.
Qed.

(** A call makes one or two calls to the file system and no other: it
    asks whether the work directory of the service exists and, at most,
    creates it.  It returns a collection only when the specification
    lists a repository of that name with a service entry whose build
    type is [heroku-buildpack]; the collection is then the one given,
    with the nodes of the service registered. *)
Theorem generateServiceTasks_outcome (tasks : list (Task D)) (baseDir : string)
        (spec : Spec) (cfg : Cfg) (n : string) (cmdOptions : CmdOptions)
        (h h' : Host D) (r : Completion (list (Task D))) (calls : list Call) :
  generateServiceTasks tasks baseDir spec cfg n cmdOptions h = (r, h', calls) ->
  let workDir := path_join [baseDir; "service-" +:+ n] in
  (calls = [CExistsSync workDir] \/ calls = [CExistsSync workDir; CMkdirSync workDir])
  /\ forall ts, r = Normal ts ->
       exists rep svc,
         List.find (fun x => String.eqb (repo_name x) n) (repositories spec) = Some rep
         /\ service rep = Some svc
         /\ buildtype svc = "heroku-buildpack"
         /\ ts = registerNodes (closureOf baseDir cfg n cmdOptions svc) tasks.
Proof. apply generateServiceTasks_inv. Qed.

Lemma registerNodes_fresh (c : Closure) :
  stackImage c <> buildImage c ->
  registerNodes c []
  = [pullStackImageTask c; pullBuildImageTask c; cloneTask c;
     compileTask c; buildImageTask c; docsTask c; pushImageTask c :> Task D].
Proof.
  intros Hne. rewrite registerNodes_eq.
  rewrite (ensureTask_absent (pullStackImageTask c) []) by (intros x []).
  rewrite (ensureTask_absent (pullBuildImageTask c)).
  2:{ intros x [<-|[]]. simpl. intros E%app_inv_head. auto. }
  rewrite (ensureTask_absent (cloneTask c)).
  2:{ intros x [<-|[<-|[]]]; simpl; discriminate. }
  reflexivity.
Qed.

End GenerateMore.

(** ** The graph of a first call *)

Section FirstCall.
Context {D : Type} `{!Collaborators D}.
Import StrFacts KeyFacts.

Ltac differ p :=
  let E := fresh in
  intros E; apply (f_equal (Str.startsWith p)) in E; discriminate E.

Lemma fresh_titles_distinct (c : Closure) :
  stackImage c <> buildImage c ->
  List.NoDup (map title (registerNodes (D:=D) c [])).
Proof.
  intros Hne. rewrite (registerNodes_fresh c Hne). simpl.
  repeat (apply List.NoDup_cons; [simpl; intros Hor|]); [..|apply List.NoDup_nil];
    repeat (destruct Hor as [E|Hor]); try contradiction; revert E.
  all: try (intros E%app_inv_head; congruence).
  all: try differ "P".
  all: try differ "C".
  all: try (intros E; do 2 apply app_inv_head in E; discriminate E).
Qed.

Lemma fresh_provides_distinct (c : Closure) :
  stackImage c <> buildImage c ->
  List.NoDup (concat (map provides (registerNodes (D:=D) c []))).
Proof.
  intros Hne. rewrite (registerNodes_fresh c Hne). simpl.
  unfold builtAppDirKey, dockerImageKey, onRegistryKey, docsDirKey.
  repeat (apply List.NoDup_cons; [simpl; intros Hor|]); [..|apply List.NoDup_nil];
    repeat (destruct Hor as [E|Hor]); try contradiction; revert E.
  all: try (intros E%app_inv_head; congruence).
  all: try differ "docker".
  all: try differ "repo".
  all: try differ "docs".
  all: try (intros E; do 2 apply app_inv_head in E; discriminate E).
Qed.

(** A first call, on an empty collection, that completes returns seven
    nodes with distinct titles; no key is provided twice; and every
    required key other than the directory and the exact source of the
    repository is provided by a node that stands earlier in the
    collection. *)
Theorem first_call_graph_is_well_formed (baseDir : string)
        (spec : Spec) (cfg : Cfg) (n : string) (cmdOptions : CmdOptions)
        (h h' : Host D) (ts : list (Task D)) (calls : list Call) :
  generateServiceTasks [] baseDir spec cfg n cmdOptions h = (Normal ts, h', calls) ->
  length ts = 7
  /\ List.NoDup (map title ts)
  /\ List.NoDup (concat (map provides ts))
  /\ forall i node k,
       nth_error ts i = Some node -> In k (requires node) ->
       k = "repo-" +:+ n +:+ "-dir"
       \/ k = "repo-" +:+ n +:+ "-exact-source"
       \/ exists producer, In producer (firstn i ts) /\ In k (provides producer).
Proof.
  intros Hrun. apply generateServiceTasks_inv in Hrun as [_ Hts].
  destruct (Hts ts eq_refl) as (rep & svc & _ & _ & _ & ->).
  set (c := closureOf baseDir cfg n cmdOptions svc).
  assert (Hne : stackImage c <> buildImage c).
  { unfold c, closureOf. simpl. rewrite <- StrFacts.app_assoc.
    apply app_neq_self. discriminate. }
  split; [now rewrite (registerNodes_fresh c Hne)|].
  split; [now apply fresh_titles_distinct|].
  split; [now apply fresh_provides_distinct|].
  rewrite (registerNodes_fresh c Hne). intros i node k Hnode Hk.
  destruct i as [|[|[|[|[|[|[|i]]]]]]]; simpl in Hnode;
    [injection Hnode as <-..|destruct i; discriminate Hnode]; simpl in Hk.
  - destruct Hk.
  - destruct Hk.
  - destruct Hk.
  - destruct Hk as [<-|[<-|[<-|[<-|[]]]]].
    + now left.
    + right. now left.
    + right. right. exists (pullBuildImageTask c). simpl. auto.
    + right. right. exists (cloneTask c). simpl. auto.
  - destruct Hk as [<-|[<-|[<-|[]]]].
    + right. now left.
    + right. right. exists (compileTask c). simpl. auto 6.
    + right. right. exists (pullStackImageTask c). simpl. auto.
  - destruct Hk as [<-|[<-|[<-|[]]]].
    + right. now left.
    + right. right. exists (compileTask c). simpl. auto 6.
    + right. right. exists (pullStackImageTask c). simpl. auto.
  - destruct Hk as [<-|[<-|[]]].
    + right. right. exists (buildImageTask c). simpl. auto 8.
    + right. right. exists (buildImageTask c). simpl. auto 8.
Qed.

End FirstCall.

(** ** What the runs call and return *)

Section RunsMore.
Context {D : Type} `{!Collaborators D}.
Import StrFacts SplitFacts.

Lemma never_dirStamped P (dir : string) (sources : Val) :
  P (CDirStamped dir sources) = false -> never P (dirStamped (D:=D) dir sources).
Proof. intros Hc h r h' calls [= <- <- <-]. repeat constructor. assumption. Qed.

Lemma never_stampDir P (dir : string) (sources : Val) :
  P (CStampDir dir sources) = false -> never P (stampDir (D:=D) dir sources).
Proof. intros Hc h r h' calls [= <- <- <-]. repeat constructor. assumption. Qed.

Lemma buildImageRun_never_pushes (c : Closure) (requirements : gmap string Val) :
  never is_dockerPush (buildImageRun c requirements).
Proof.
  unfold buildImageRun, dockerImages, dockerRegistryCheck, dockerPull,
    writeFileSync, dockerBuild.
  cbv zeta. apply never_bind; [apply never_lift|intros tag].
  apply never_bind; [apply never_step; reflexivity|intros _].
  apply never_bind; [apply never_call; reflexivity|intros images].
  apply never_bind; [apply never_call; reflexivity|intros b].
  destruct (negb _ && b); [auto with quiet|].
  destruct (existsb _ images); [auto with quiet|].
  apply never_bind; [apply never_step; reflexivity|intros _].
  apply never_bind; [apply never_call; reflexivity|intros _].
  apply never_bind; [|auto with quiet].
  destruct (prop requirements (builtAppDirKey c)); auto with quiet.
Qed.

(** Publishing is the business of the push stage alone: no run of the
    pull, clone, compile, build-image and docs nodes calls [dockerPush],
    whatever the collaborators answer; the push stage calls it only
    with the push option on, and calls nothing else. *)
Theorem only_push_image_pushes (c : Closure) (requirements : gmap string Val) :
  never is_dockerPush (run (pullStackImageTask c) requirements)
  /\ never is_dockerPush (run (pullBuildImageTask c) requirements)
  /\ never is_dockerPush (run (cloneTask c) requirements)
  /\ never is_dockerPush (run (compileTask c) requirements)
  /\ never is_dockerPush (run (buildImageTask c) requirements)
  /\ never is_dockerPush (run (docsTask c) requirements)
  /\ (truthy (push (cmdOptions c)) = false ->
      never is_dockerPush (run (pushImageTask c) requirements))
  /\ never (fun call => negb (is_dockerPush call)) (run (pushImageTask c) requirements).
Proof.
  repeat split.
  - simpl. unfold dockerPull. auto with quiet.
  - simpl. unfold dockerPull. auto with quiet.
  - simpl. unfold gitClone. cbv zeta. auto with quiet.
  - simpl. unfold compileRun, rimraf. cbv zeta.
    apply never_bind; [now apply never_dirStamped|intros [|]]; [auto with quiet|].
    apply never_bind; [auto with quiet|intros _].
    apply never_bind; [|intros _].
    + unfold compileBuild, copy, dockerRun, existsSync, rimraf, mkdirSync,
        readFileSync, writeFileSync.
      cbv zeta. auto 60 with quiet.
    + apply never_bind; [now apply never_stampDir|auto with quiet].
  - apply buildImageRun_never_pushes.
  - simpl. unfold docsRun, rimraf. cbv zeta.
    apply never_bind; [now apply never_dirStamped|intros [|]]; [auto with quiet|].
    apply never_bind; [auto with quiet|intros _].
    apply never_bind; [|intros _].
    + unfold docsBuild, mkdirp, dockerRun. cbv zeta. auto with quiet.
    + apply never_bind; [now apply never_stampDir|auto with quiet].
  - intros Hpush. simpl. unfold pushImageRun. rewrite Hpush. simpl.
    auto with quiet.
  - simpl. unfold pushImageRun, dockerPush.
    destruct (negb _); [auto with quiet|].
    destruct (truthy _); auto with quiet.
Qed.

(** With the push option off, the run of Service Push Image skips with
    the empty map, makes no call and leaves the host as it is, whatever
    the requirements say about the registry. *)
Theorem push_image_skips_without_option (c : Closure)
        (requirements : gmap string Val) (h : Host D) :
  truthy (push (cmdOptions c)) = false ->
  run (pushImageTask c) requirements h = (Normal (Skip ∅), h, []).
Proof. intros Hpush. simpl. unfold pushImageRun. now rewrite Hpush. Qed.

(** The run of Clone makes one call, [gitClone] of the buildpack URL into
    the repository directory under the base directory; it completes
    exactly when that call does, and then returns the object that maps
    its one provided key to that directory. *)
Theorem clone_run_outcome (c : Closure) (requirements : gmap string Val)
        (h h' : Host D) (r : Completion RunValue) (calls : list Call) :
  run (cloneTask c) requirements h = (r, h', calls) ->
  let repoDir := path_join [baseDir c; "repo-" +:+ buildpackName c] in
  calls = [CGitClone repoDir (buildpackUrl c)]
  /\ ((ext_gitClone repoDir (buildpackUrl c) h = (Normal tt, h')
       /\ r = Normal (Object {[ "repo-" +:+ buildpackName c := VStr repoDir ]}))
      \/ exists e, ext_gitClone repoDir (buildpackUrl c) h = (Throw e, h')
                   /\ r = Throw e).
Proof.
  simpl. intros [(u & h1 & l1 & l2 & H1 & H2 & ->)|(e & H1 & ->)]%bind_inv;
    apply call_inv in H1 as [H1 ->].
  - unfold ret in H2. injection H2 as <- <- <-. split; [reflexivity|].
    left. destruct u. auto.
  - split; [reflexivity|]. right. eauto.
Qed.

End RunsMore.

(** ** More on Service Build Image *)

Section BuildImageMore.
Context {D : Type} `{!Collaborators D}.
Import StrFacts SplitFacts.

(** The tag is computed from the part of the exact-source identifier
    between its first and its second hash sign.  An identifier without
    a hash sign gives the tag that ends in [:undefined]. *)
Theorem imageTag_revision (c : Closure) (requirements : gmap string Val)
        (s : string) :
  prop requirements (exactSourceKey c) = VStr s ->
  (forall url ref rest,
     s = url +:+ "#" +:+ ref +:+ rest ->
     Str.includes "#" url = false -> Str.includes "#" ref = false ->
     (rest = EmptyString \/ exists r, rest = String "#" r) ->
     imageTag c requirements
     = Normal (repositoryPrefix (cfg c) +:+ name c +:+ ":" +:+ ref))
  /\ (Str.includes "#" s = false ->
      imageTag c requirements
      = Normal (repositoryPrefix (cfg c) +:+ name c +:+ ":" +:+ "undefined")).
Proof.
  intros Hreq. unfold imageTag. rewrite Hreq. split.
  - intros url ref rest -> Hurl Href Hrest.
    change (url +:+ "#" +:+ ref +:+ rest) with (url +:+ String "#" (ref +:+ rest)).
    rewrite (split_first _ _ _ Hurl).
    destruct Hrest as [->|[r ->]].
    + now rewrite app_nil_r, (split_no_sep _ _ Href).
    + now rewrite (split_first _ _ _ Href).
  - intros Hs. now rewrite (split_no_sep _ _ Hs).
Qed.

(** Without an exact-source identifier that is a string, the run throws
    a TypeError before any call, and the host is as it was. *)
Theorem build_image_needs_exact_source (c : Closure)
        (requirements : gmap string Val) (h : Host D) :
  (forall s, prop requirements (exactSourceKey c) <> VStr s) ->
  exists message,
    run (buildImageTask c) requirements h = (Throw (TypeError message), h, []).
Proof.
  intros Hreq. simpl. unfold buildImageRun, bind, lift, imageTag.
  destruct (prop requirements (exactSourceKey c)) as [|b|s]; simpl; eauto.
  now destruct (Hreq s).
Qed.

(** The three ways in which the run completes.  The tag is in the local
    store: skip after the probes.  It is not, and the registry has it:
    pull the tag, then skip.  Neither: write the Dockerfile, build the
    work directory under the tag, and return the provides.  In each case
    the image-on-registry value is the answer of the registry. *)
Theorem build_image_completed_run (c : Closure) (requirements : gmap string Val)
        (h h' : Host D) (v : RunValue) (calls : list Call) :
  run (buildImageTask c) requirements h = (Normal v, h', calls) ->
  exists tag images onRegistry h1 h2,
    imageTag c requirements = Normal tag
    /\ ext_dockerImages (baseDir c) h = (Normal images, h1)
    /\ ext_dockerRegistryCheck tag h1 = (Normal onRegistry, h2)
    /\ ((existsb (hasTag tag) images = true
         /\ v = Skip (buildImageProvides c tag onRegistry)
         /\ calls = probeCalls c tag)
        \/ (existsb (hasTag tag) images = false /\ onRegistry = true
            /\ v = Skip (buildImageProvides c tag true)
            /\ calls = probeCalls c tag ++ [CDockerPull tag (baseDir c)])
        \/ (existsb (hasTag tag) images = false /\ onRegistry = false
            /\ v = Object (buildImageProvides c tag false)
            /\ exists appDir tarball,
                 prop requirements (builtAppDirKey c) = VStr appDir
                 /\ tar_cwd tarball = workDir c
                 /\ tar_entries tarball = ["app"; "Dockerfile"]
                 /\ calls = probeCalls c tag
                      ++ [CStep "Create Docker-Build Tarball";
                          CWriteFileSync (path_join [workDir c; "Dockerfile"])
                            (DOCKERFILE_TEMPLATE (stackImage c)) None;
                          CDockerBuild {|
                            build_tarball := tarball;
                            build_logfile := workDir c +:+ "/docker-build.log";
                            build_tag := tag;
                            build_baseDir := baseDir c |}])).
Proof.
  simpl. unfold buildImageRun. cbv zeta.
  destruct (imageTag c requirements) as [tag|e] eqn:Htag;
    [|intros [(t & ? & ? & ? & [=] & _)|(e' & _ & [=])]%bind_inv].
  intros [(t & g0 & la & lb & H0 & H & ->)|(e' & _ & [=])]%bind_inv.
  unfold lift, ret in H0. injection H0 as <- <- <-.
  apply bind_inv in H as [(u & g1 & lc & ld & H0 & H & ->)|(e' & _ & [=])].
  unfold step in H0. injection H0 as _ <- <-.
  apply bind_inv in H as [(images & h1 & le & lf & H1 & H & ->)|(e' & _ & [=])].
  apply call_inv in H1 as [H1 ->].
  apply bind_inv in H as [(b & h2 & lg & lh & H2 & H & ->)|(e' & _ & [=])].
  apply call_inv in H2 as [H2 ->].
  exists tag, images, b, h1, h2.
  split; [reflexivity|]. split; [assumption|]. split; [assumption|].
  destruct (existsb (hasTag tag) images) eqn:Hlocal; simpl in H.
  - left. unfold ret in H. injection H as <- <- <-. auto.
  - right. destruct b; simpl in H.
    + left.
      apply bind_inv in H as [(u1 & h3 & li & lj & H3 & H & ->)|(e' & _ & [=])].
      apply call_inv in H3 as [_ ->].
      unfold ret in H. injection H as <- <- <-. auto.
    + right.
      apply bind_inv in H as [(u1 & h3 & li & lj & H3 & H & ->)|(e' & _ & [=])].
      unfold step in H3. injection H3 as _ <- <-.
      apply bind_inv in H as [(u2 & h4 & lk & ll & H4 & H & ->)|(e' & _ & [=])].
      apply call_inv in H4 as [_ ->].
      apply bind_inv in H as [(git & h5 & lm & ln & H5 & H & ->)|(e' & _ & [=])].
      destruct (prop requirements (builtAppDirKey c)) as [|?|appDir];
        try discriminate H5.
      unfold ret in H5. injection H5 as <- <- <-.
      apply bind_inv in H as [(u3 & h6 & lo & lp & H6 & H & ->)|(e' & _ & [=])].
      apply call_inv in H6 as [_ ->].
      unfold ret in H. injection H as <- <- <-.
      repeat split. eexists appDir, _. split; [reflexivity|].
      refine (conj _ (conj _ eq_refl)); reflexivity.
Qed.

End BuildImageMore.



(** ** The calls of the stamped stages, one by one *)

Section StageTraces.
Context {D : Type} `{!Collaborators D}.

(** Every run of Service Generate Docs is a prefix of one sequence of
    calls: the question to the stamp store, the removal of the docs
    directory, [mkdirp] of its parent, one container run of
    [/app/entrypoint write-docs] in the stack image, and the stamp.  The
    run skips after the first call, returns its provides after the last,
    and throws when it stops in between. *)
Theorem docs_run_calls (c : Closure) (requirements : gmap string Val)
        (h h' : Host D) (r : Completion RunValue) (calls : list Call) :
  run (docsTask c) requirements h = (r, h', calls) ->
  let sources := prop requirements (exactSourceKey c) in
  let container := {|
    run_image := stackImage c;
    run_command := ["/app/entrypoint"; "write-docs"];
    run_env := Some ["DOCS_OUTPUT_DIR=/basedir/docs/" +:+ name c];
    run_binds := [toString (prop requirements (builtAppDirKey c)) +:+ ":/app";
                  baseDir c +:+ ":/basedir"];
    run_logfile := workDir c +:+ "/generate-docs.log";
    run_baseDir := baseDir c |} in
  let full := [CDirStamped (docsDir c) sources; CRimraf (docsDir c);
               CMkdirp (path_dirname (docsDir c)); CDockerRun container;
               CStampDir (docsDir c) sources] in
  (calls = firstn 1 full /\ r = Normal (Skip (docsProvides c)) /\ h' = h)
  \/ (exists k e, 2 <= k <= 4 /\ calls = firstn k full /\ r = Throw e)
  \/ (calls = full /\ r = Normal (Object (docsProvides c))).
Proof.
  simpl. unfold docsRun. cbv zeta. intros H.
  apply bind_inv in H as [(s & g0 & la & lb & H0 & H & ->)|(e & H0 & _)];
    [|discriminate H0].
  unfold dirStamped in H0. injection H0 as <- <- <-.
  destruct (stamped h (docsDir c) _).
  { left. unfold ret in H. injection H as <- <- <-. auto. }
  right.
  apply bind_inv in H as [(u1 & g1 & lc & ld & H1 & H & ->)|(e & H1 & ->)];
    apply call_inv in H1 as [_ ->];
    [|left; exists 2, e; repeat split; lia].
  apply bind_inv in H as [(u2 & g2 & le & lf & H2 & H & ->)|(e & H2 & ->)].
  - unfold docsBuild in H2. cbv zeta in H2.
    apply bind_inv in H2 as [(u3 & g3 & lg & lh & H3 & H4 & ->)|(e & H3 & [=])].
    apply call_inv in H3 as [_ ->]. apply call_inv in H4 as [_ ->].
    unfold bind, stampDir, ret in H. injection H as <- <- <-.
    right. split; reflexivity.
  - left. unfold docsBuild in H2. cbv zeta in H2.
    apply bind_inv in H2 as [(u3 & g3 & lg & lh & H3 & H4 & ->)|(e' & H3 & _)];
      apply call_inv in H3 as [_ ->].
    + apply call_inv in H4 as [_ ->]. exists 4, e. repeat split; lia.
    + exists 3, e. repeat split; lia.
Qed.


End StageTraces.

(** ** More runs on the simulated host *)

Module MoreExamples.

Lemma closureOf_images_witness :
  stackImage (closureOf (D:=Sample.Disk) "/build" Sample.config "auth"
                {| push := VUndef |}
                {| buildtype := "heroku-buildpack"; stack := "heroku-16";
                   buildpack := "https://github.com/heroku/heroku-buildpack-nodejs" |})
  = "heroku/" +:+ "heroku" +:+ ":" +:+ "16".
Proof.
  apply (proj1 (proj2 (proj2 (closureOf_images (D:=Sample.Disk)
           "/build" Sample.config "auth" {| push := VUndef |}
           {| buildtype := "heroku-buildpack"; stack := "heroku-16";
              buildpack := "https://github.com/heroku/heroku-buildpack-nodejs" |}))));
    reflexivity.
Defined.

Lemma closureOf_buildpackName_witness :
  buildpackName (closureOf (D:=Sample.Disk) "/build" Sample.config "auth"
                   {| push := VUndef |}
                   {| buildtype := "heroku-buildpack"; stack := "heroku-16";
                      buildpack := "https://github.com/heroku/heroku-buildpack-nodejs" |})
  = "heroku-buildpack-nodejs".
Proof.
  apply (proj1 (closureOf_buildpackName (D:=Sample.Disk)
           "/build" Sample.config "auth" {| push := VUndef |}
           {| buildtype := "heroku-buildpack"; stack := "heroku-16";
              buildpack := "https://github.com/heroku/heroku-buildpack-nodejs" |})
           "heroku-buildpack-nodejs" EmptyString);
    [reflexivity|reflexivity|now left].
Defined.

Lemma ensureTask_keeps_titles_distinct_witness :
  List.NoDup (map title (ensureTask (cloneTask Sample.plain)
                                    [pullStackImageTask Sample.plain])).
Proof.
  apply (ensureTask_keeps_titles_distinct (cloneTask Sample.plain)
           [pullStackImageTask Sample.plain]).
  simpl. apply List.NoDup_cons; [intros []|apply List.NoDup_nil].
Defined.

Lemma registerNodes_shares_prerequisites_witness :
  registerNodes Sample.plain (registerNodes Sample.plain [])
  = registerNodes Sample.plain []
    ++ [compileTask Sample.plain; buildImageTask Sample.plain;
        docsTask Sample.plain; pushImageTask Sample.plain].
Proof.
  apply (registerNodes_shares_prerequisites Sample.plain Sample.plain []);
    reflexivity.
Defined.

Lemma generateServiceTasks_outcome_witness :
  exists rep svc,
    List.find (fun x => String.eqb (repo_name x) "auth") (repositories Sample.spec)
    = Some rep
    /\ service rep = Some svc
    /\ buildtype svc = "heroku-buildpack"
    /\ registerNodes Sample.plain []
       = registerNodes (closureOf "/build" Sample.config "auth" {| push := VUndef |} svc) [].
Proof.
  refine (proj2 (generateServiceTasks_outcome [] "/build" Sample.spec Sample.config
                   "auth" {| push := VUndef |} (Sample.host [] []) (Sample.host [] [])
                   (Normal (registerNodes Sample.plain []))
                   [CExistsSync "/build/service-auth"] _)
                (registerNodes Sample.plain []) eq_refl).
  reflexivity.
Defined.

Lemma first_call_graph_is_well_formed_witness :
  length (registerNodes Sample.plain []) = 7.
Proof.
  refine (proj1 (first_call_graph_is_well_formed "/build" Sample.spec Sample.config
           "auth" {| push := VUndef |} (Sample.host [] []) (Sample.host [] [])
           (registerNodes Sample.plain []) [CExistsSync "/build/service-auth"] _)).
  reflexivity.
Defined.

Lemma push_image_skips_without_option_witness :
  run (pushImageTask Sample.plain) (Sample.requirements true)
      (Sample.host [] [Sample.authTag])
  = (Normal (Skip ∅), Sample.host [] [Sample.authTag], []).
Proof.
  apply (push_image_skips_without_option Sample.plain (Sample.requirements true)).
  reflexivity.
Defined.

Lemma clone_run_outcome_witness :
  [CGitClone "/build/repo-heroku-buildpack-nodejs"
     "https://github.com/heroku/heroku-buildpack-nodejs"]
  = [CGitClone (path_join [baseDir Sample.plain;
                           "repo-" +:+ buildpackName Sample.plain])
       (buildpackUrl Sample.plain)].
Proof.
  refine (proj1 (clone_run_outcome Sample.plain ∅ (Sample.host [] [])
           (Sample.host [] [])
           (Normal (Object {[ "repo-heroku-buildpack-nodejs"
                              := VStr "/build/repo-heroku-buildpack-nodejs" ]}))
           [CGitClone "/build/repo-heroku-buildpack-nodejs"
              "https://github.com/heroku/heroku-buildpack-nodejs"] _)).
  reflexivity.
Defined.

Lemma imageTag_revision_witness :
  imageTag Sample.plain (Sample.requirements false)
  = Normal ("taskcluster/" +:+ "auth" +:+ ":" +:+ "abc123").
Proof.
  refine (proj1 (imageTag_revision Sample.plain (Sample.requirements false)
                   Sample.exactSource _)
                "https://github.com/taskcluster/auth" "abc123" EmptyString
                _ _ _ _);
    [reflexivity|reflexivity|reflexivity|reflexivity|now left].
Defined.

Lemma build_image_needs_exact_source_witness :
  exists message,
    run (buildImageTask Sample.plain) ∅ (Sample.host [] [])
    = (Throw (TypeError message), Sample.host [] [], []).
Proof.
  apply (build_image_needs_exact_source Sample.plain ∅ (Sample.host [] [])).
  intros s. discriminate.
Defined.

Lemma build_image_completed_run_witness :
  exists tag, imageTag Sample.plain (Sample.requirements false) = Normal tag.
Proof.
  assert (Hrun : run (buildImageTask Sample.plain) (Sample.requirements false)
                     (Sample.host [Sample.authImage] [])
                 = (Normal (Skip (buildImageProvides Sample.plain Sample.authTag false)),
                    Sample.host [Sample.authImage] [],
                    probeCalls Sample.plain Sample.authTag)) by reflexivity.
  destruct (build_image_completed_run _ _ _ _ _ _ Hrun)
    as (tag & _ & _ & _ & _ & Htag & _).
  exists tag. exact Htag.
Defined.

Lemma docs_run_calls_witness :
  let c := Sample.plain in
  let h := stamp (Sample.host [] []) "/build/docs/auth" (VStr Sample.exactSource) in
  let calls := [CDirStamped "/build/docs/auth" (VStr Sample.exactSource)] in
  let r := Normal (Skip (docsProvides c)) in
  let sources := prop (Sample.requirements false) (exactSourceKey c) in
  let container := {|
    run_image := stackImage c;
    run_command := ["/app/entrypoint"; "write-docs"];
    run_env := Some ["DOCS_OUTPUT_DIR=/basedir/docs/" +:+ name c];
    run_binds := [toString (prop (Sample.requirements false) (builtAppDirKey c))
                  +:+ ":/app";
                  baseDir c +:+ ":/basedir"];
    run_logfile := workDir c +:+ "/generate-docs.log";
    run_baseDir := baseDir c |} in
  let full := [CDirStamped (docsDir c) sources; CRimraf (docsDir c);
               CMkdirp (path_dirname (docsDir c)); CDockerRun container;
               CStampDir (docsDir c) sources] in
  (calls = firstn 1 full /\ r = Normal (Skip (docsProvides c)) /\ h = h)
  \/ (exists k e, 2 <= k <= 4 /\ calls = firstn k full /\ r = Throw e)
  \/ (calls = full /\ r = Normal (Object (docsProvides c))).
Proof.
  intros c h calls r.
  apply (docs_run_calls c (Sample.requirements false) h h r calls).
  reflexivity.
Defined.


End MoreExamples.
